(** * CryptoID database: identifier codec, record transcoder, store manager

    A shallow embedding of [src/database/CryptoID/CryptoID.db.ts].

    - JavaScript objects that the code patches in place (the nested
      [linkedCryptoID] of a profile, the members of [attachedProfiles])
      live in an object heap and records refer to them by location, so
      that aliasing and in-place prototype changes are visible.
    - A function that may [throw] returns a [Completion]; heap effects
      performed before the throw are kept, as in JavaScript.
    - The object stores of the IndexedDB database are finite maps from
      the inline key (the [identifier] string) to the stored record. *)

From Stdlib Require Import String Ascii ZArith List Lia.
From stdpp Require Import base option gmap strings list fin_maps.

Local Open Scope string_scope.

(** ** JavaScript values *)

(** The prototype of an object decides which methods it answers to: the
    "variant-specific capability set" of an identifier. An object that
    went through structured cloning has [ObjectPrototype]. *)
Inductive Prototype : Type :=
| ObjectPrototype
| PersonIdentifierPrototype
| ECKeyIdentifierPrototype.

#[global] Instance Prototype_eq_dec : EqDecision Prototype.
Proof. solve_decision. Defined.

(** An identifier object: its prototype slot, its own [type] property
    (the discriminant read at line 157) and the rest of its own data. *)
Record IdentifierObj : Type := mkIdentifier {
  proto : Prototype;
  type : string;
  data : string
}.

#[global] Instance IdentifierObj_eq_dec : EqDecision IdentifierObj.
Proof. solve_decision. Defined.

(** Opaque handles of the Web Crypto API and JavaScript dates. *)
Inductive CryptoKey : Type := KeyHandle (id : N).
Definition Date : Type := Z.

#[global] Instance CryptoKey_eq_dec : EqDecision CryptoKey.
Proof. solve_decision. Defined.

(** What a [throw] carries. [Error] and [TypeError] are the JavaScript
    classes; [DOMException] carries the name IndexedDB gives it. *)
Inductive Exception : Type :=
| Error (message : string)
| TypeError (message : string)
| DOMException (name : string).

#[global] Instance Exception_eq_dec : EqDecision Exception.
Proof. solve_decision. Defined.

Inductive Completion (A : Type) : Type :=
| Return (a : A)
| Throw (e : Exception).
Arguments Return {A} a.
Arguments Throw {A} e.

(** ** The object heap *)

Definition loc : Type := positive.

(** Every reference a record holds points at an object, so the heap is a
    total function; two references alias iff they are the same location. *)
Definition Heap : Type := loc -> IdentifierObj.

(** ** Computations over a state [S] that may throw *)

Definition M (S A : Type) : Type := S -> S * Completion A.

Definition ret {S A} (a : A) : M S A := fun s => (s, Return a).
Definition throw {S A} (e : Exception) : M S A := fun s => (s, Throw e).
Definition bind {S A B} (c : M S A) (k : A -> M S B) : M S B :=
  fun s =>
    match c s with
    | (s', Return a) => k a s'
    | (s', Throw e) => (s', Throw e)
    end.
Definition lift {S A} (r : Completion A) : M S A := fun s => (s, r).

Notation "'let*' x ':=' c 'in' k" := (bind c (fun x => k))
  (at level 10, x name, c at level 100, k at level 200).

(** [x.linkedCryptoID.type]: reading the own property [type]. *)
Definition getType (l : loc) : M Heap string :=
  fun h => (h, Return (type (h l))).

(** [Object.setPrototypeOf(o, p)] on an ordinary extensible object (every
    object read back from an object store is one): only the prototype slot
    of that one object changes. *)
Definition withPrototype (p : Prototype) (o : IdentifierObj) : IdentifierObj :=
  {| proto := p; type := type o; data := data o |}.

Definition setPrototypeOf (l : loc) (p : Prototype) : M Heap unit :=
  fun h => (fun l' => if decide (l' = l) then withPrototype p (h l) else h l',
            Return tt).

(** ** Records (source lines 104-124) *)

(** [ProfileRecord] and [ProfileRecordDb = Omit<ProfileRecord, 'identifier'>
    & { identifier: string }] differ in the type of [identifier] only. *)
Module Profile.
Record t (I : Type) : Type := mk {
  identifier : I;
  nickname : option string;
  localKey : option CryptoKey;
  linkedCryptoID : option loc;
  createdAt : Date;
  updatedAt : Date
}.
Arguments mk {I}.
Arguments identifier {I}.
Arguments nickname {I}.
Arguments localKey {I}.
Arguments linkedCryptoID {I}.
Arguments createdAt {I}.
Arguments updatedAt {I}.
End Profile.

(** [attachedProfiles : Set<PersonIdentifier>] is kept as the list of its
    members in iteration (insertion) order. *)
Module CryptoID.
Record t (I : Type) : Type := mk {
  identifier : I;
  publicKey : CryptoKey;
  privateKey : option CryptoKey;
  localKey : option CryptoKey;
  nickname : string;
  attachedProfiles : list loc;
  createdAt : Date;
  updatedAt : Date
}.
Arguments mk {I}.
Arguments identifier {I}.
Arguments publicKey {I}.
Arguments privateKey {I}.
Arguments localKey {I}.
Arguments nickname {I}.
Arguments attachedProfiles {I}.
Arguments createdAt {I}.
Arguments updatedAt {I}.
End CryptoID.

Abbreviation ProfileRecord := (Profile.t IdentifierObj).
Abbreviation ProfileRecordDb := (Profile.t string).
Abbreviation CryptoIDRecord := (CryptoID.t IdentifierObj).
Abbreviation CryptoIDRecordDb := (CryptoID.t string).

(** ** Record transcoder (source lines 148-173) *)

Section Transcoder.
(** [x.identifier.toText()] and [Identifier.fromString(s)] are imported
    from ['../type']; the transcoder is written over any pair of them.
    The primary identifier is never written to by the transcoder and
    [fromString] builds a new object from a string, so both are taken as
    functions on values. *)
Variable toText : IdentifierObj -> Completion string.
Variable fromString : string -> Completion IdentifierObj.

(** [{ ...x, identifier: x.identifier.toText() }] *)
Definition profileIn (x : ProfileRecord) : M Heap ProfileRecordDb :=
  let* s := lift (toText (Profile.identifier x)) in
  ret {| Profile.identifier := s;
         Profile.nickname := Profile.nickname x;
         Profile.localKey := Profile.localKey x;
         Profile.linkedCryptoID := Profile.linkedCryptoID x;
         Profile.createdAt := Profile.createdAt x;
         Profile.updatedAt := Profile.updatedAt x |}.

(** Lines 156-159: the guard on [x.linkedCryptoID]. *)
Definition restoreLinkedCryptoID (x : ProfileRecordDb) : M Heap unit :=
  match Profile.linkedCryptoID x with
  | Some l =>
      let* t := getType l in
      if String.eqb t "ec_key"
      then setPrototypeOf l ECKeyIdentifierPrototype
      else throw (Error "Unknown type of linkedCryptoID")
  | None => ret tt
  end.

Definition profileOut (x : ProfileRecordDb) : M Heap ProfileRecord :=
  let* _ := restoreLinkedCryptoID x in
  let* i := lift (fromString (Profile.identifier x)) in
  ret {| Profile.identifier := i;
         Profile.nickname := Profile.nickname x;
         Profile.localKey := Profile.localKey x;
         Profile.linkedCryptoID := Profile.linkedCryptoID x;
         Profile.createdAt := Profile.createdAt x;
         Profile.updatedAt := Profile.updatedAt x |}.

Definition cryptoKeyRecordIn (x : CryptoIDRecord) : M Heap CryptoIDRecordDb :=
  let* s := lift (toText (CryptoID.identifier x)) in
  ret {| CryptoID.identifier := s;
         CryptoID.publicKey := CryptoID.publicKey x;
         CryptoID.privateKey := CryptoID.privateKey x;
         CryptoID.localKey := CryptoID.localKey x;
         CryptoID.nickname := CryptoID.nickname x;
         CryptoID.attachedProfiles := CryptoID.attachedProfiles x;
         CryptoID.createdAt := CryptoID.createdAt x;
         CryptoID.updatedAt := CryptoID.updatedAt x |}.

(** Lines 169-171: [for (const each of x.attachedProfiles)]. *)
Fixpoint restoreAttachedProfiles (ls : list loc) : M Heap unit :=
  match ls with
  | [] => ret tt
  | each :: rest =>
      let* _ := setPrototypeOf each PersonIdentifierPrototype in
      restoreAttachedProfiles rest
  end.

Definition cryptoKeyRecordOut (x : CryptoIDRecordDb) : M Heap CryptoIDRecord :=
  let* _ := restoreAttachedProfiles (CryptoID.attachedProfiles x) in
  let* i := lift (fromString (CryptoID.identifier x)) in
  ret {| CryptoID.identifier := i;
         CryptoID.publicKey := CryptoID.publicKey x;
         CryptoID.privateKey := CryptoID.privateKey x;
         CryptoID.localKey := CryptoID.localKey x;
         CryptoID.nickname := CryptoID.nickname x;
         CryptoID.attachedProfiles := CryptoID.attachedProfiles x;
         CryptoID.createdAt := CryptoID.createdAt x;
         CryptoID.updatedAt := CryptoID.updatedAt x |}.

(** The value [cryptoKeyRecordOut] returns does not depend on the heap. *)
Definition decoded (x : CryptoIDRecordDb) : Completion CryptoIDRecord :=
  match fromString (CryptoID.identifier x) with
  | Return i =>
      Return {| CryptoID.identifier := i;
                CryptoID.publicKey := CryptoID.publicKey x;
                CryptoID.privateKey := CryptoID.privateKey x;
                CryptoID.localKey := CryptoID.localKey x;
                CryptoID.nickname := CryptoID.nickname x;
                CryptoID.attachedProfiles := CryptoID.attachedProfiles x;
                CryptoID.createdAt := CryptoID.createdAt x;
                CryptoID.updatedAt := CryptoID.updatedAt x |}
  | Throw e => Throw e
  end.
End Transcoder.

(** ** Identifier codec *)

(** Modelled from the spec: the type tag each identifier class writes into
    its canonical string, which ['../type'] (not under src/) defines. The
    canonical strings are [tag:data], as in [person:alice] and
    [ec_key:0xABCD] of the specification's scenario. *)
Definition tagOf (p : Prototype) : option string :=
  match p with
  | PersonIdentifierPrototype => Some "person"
  | ECKeyIdentifierPrototype => Some "ec_key"
  | ObjectPrototype => None
  end.

(** Modelled from the spec: [Identifier.prototype.toText] of ['../type'],
    which is not under src/. "encode(identifier) -> string produces a
    canonical, type-tagged string": the method comes with the prototype, so
    a plain object has none and the call is a [TypeError]. *)
Definition Identifier_toText (i : IdentifierObj) : Completion string :=
  match tagOf (proto i) with
  | Some tag => Return (tag +:+ ":" +:+ data i)
  | None => Throw (TypeError "toText is not a function")
  end.

(** Modelled from the spec: "parses the tag". The tag of a canonical string
    is what precedes its first colon. *)
Fixpoint splitTag (s : string) : string * string :=
  match s with
  | EmptyString => (EmptyString, EmptyString)
  | String c rest =>
      if Ascii.eqb c ":" then (EmptyString, rest)
      else let '(tag, body) := splitTag rest in (String c tag, body)
  end.

(** Modelled from the spec: [Identifier.fromString] of ['../type'], which is
    not under src/. "decode(string) -> Identifier parses the tag, constructs
    the correct variant, and fails with a DecodeError (unknown identifier
    type) if the tag does not match any supported variant." *)
Definition Identifier_fromString (s : string) : Completion IdentifierObj :=
  let '(tag, body) := splitTag s in
  if String.eqb tag "person"
  then Return (mkIdentifier PersonIdentifierPrototype "person" body)
  else if String.eqb tag "ec_key"
  then Return (mkIdentifier ECKeyIdentifierPrototype "ec_key" body)
  else Throw (Error "unknown identifier type").

(** An identifier of a supported variant: its [type] property is the tag of
    its class. *)
Definition supported (i : IdentifierObj) : Prop := tagOf (proto i) = Some (type i).

Definition isPersonIdentifier (i : IdentifierObj) : Prop :=
  proto i = PersonIdentifierPrototype /\ type i = "person".

Definition isECKeyIdentifier (i : IdentifierObj) : Prop :=
  proto i = ECKeyIdentifierPrototype /\ type i = "ec_key".

(** The TypeScript types of the two records, read on the heap:
    [identifier: PersonIdentifier], [linkedCryptoID?: CryptoIDIdentifier],
    [identifier: CryptoIDIdentifier], [attachedProfiles: Set<PersonIdentifier>]. *)
Definition wellTypedProfile (h : Heap) (p : ProfileRecord) : Prop :=
  isPersonIdentifier (Profile.identifier p) /\
  forall l, Profile.linkedCryptoID p = Some l -> isECKeyIdentifier (h l).

Definition wellTypedCryptoID (h : Heap) (r : CryptoIDRecord) : Prop :=
  isECKeyIdentifier (CryptoID.identifier r) /\
  forall l, l ∈ CryptoID.attachedProfiles r -> isPersonIdentifier (h l).

(** ** Store manager (source lines 29-46) *)

Record IndexSpec : Type := mkIndex {
  indexName : string;
  indexKeyPath : string;
  unique : bool
}.

Record ObjectStoreSpec : Type := mkObjectStore {
  storeName : string;
  keyPath : string;
  indexes : list IndexSpec
}.

(** The object stores of a database during a version-change transaction. *)
Definition Schema : Type := list ObjectStoreSpec.

Definition hasStore (name : string) (s : Schema) : bool :=
  existsb (fun o => String.eqb (storeName o) name) s.

Definition hasIndex (name : string) (o : ObjectStoreSpec) : bool :=
  existsb (fun i => String.eqb (indexName i) name) (indexes o).

(** [db.createObjectStore(name, { keyPath })]: IndexedDB throws
    ConstraintError when a store of that name exists. *)
Definition createObjectStore (name kp : string) : M Schema unit :=
  fun s =>
    if hasStore name s then (s, Throw (DOMException "ConstraintError"))
    else ((s ++ [mkObjectStore name kp []])%list, Return tt).

Fixpoint addIndex (store : string) (ix : IndexSpec) (s : Schema) : Schema :=
  match s with
  | [] => []
  | o :: rest =>
      if String.eqb (storeName o) store
      then mkObjectStore (storeName o) (keyPath o) (indexes o ++ [ix])%list :: rest
      else o :: addIndex store ix rest
  end.

(** [transaction.objectStore(store).createIndex(name, keyPath, { unique })]:
    NotFoundError without the store, ConstraintError when the index exists. *)
Definition createIndex (store name kp : string) (u : bool) : M Schema unit :=
  fun s =>
    match List.find (fun o => String.eqb (storeName o) store) s with
    | None => (s, Throw (DOMException "NotFoundError"))
    | Some o =>
        if hasIndex name o then (s, Throw (DOMException "ConstraintError"))
        else (addIndex store (mkIndex name kp u) s, Return tt)
    end.

Definition v0_v1 : M Schema unit :=
  let* _ := createObjectStore "self" "identifier" in
  let* _ := createObjectStore "others" "identifier" in
  let* _ := createObjectStore "profiles" "identifier" in
  createIndex "profiles" "network" "network" false.

(** The [upgrade] callback; [newVersion] is not read. *)
Definition upgrade (oldVersion newVersion : N) : M Schema unit :=
  if (oldVersion <? 1)%N then v0_v1 else ret tt.

(** A connection returned by [openDB]; every call of [openDB] yields a new
    connection object, numbered in call order. *)
Definition IDBPDatabase : Type := nat.

(** The closure of [db]: the variable [let db], the number of calls made to
    [openDB], and the promises of [openDB] that have not settled yet, each
    with its [.then(x => (db = x))] attached. *)
Record Runtime : Type := mkRuntime {
  db_var : option IDBPDatabase;
  opened : nat;
  pending : list IDBPDatabase
}.

Definition initial : Runtime := mkRuntime None 0 [].

(** One call of [db()]: the connection the returned promise stands for. The
    promise fulfils with it, at once when [db] holds it, else when the
    [openDB] promise does; it rejects when the [openDB] promise rejects. *)
Definition db (r : Runtime) : Runtime * IDBPDatabase :=
  match db_var r with
  | None =>
      let x := opened r in
      (mkRuntime None (S (opened r)) (pending r ++ [x])%list, x)
  | Some x => (r, x)
  end.

(** The promise of the connection [x] fulfils and its [then] callback runs. *)
Definition settle (x : IDBPDatabase) (r : Runtime) : Runtime :=
  if bool_decide (x ∈ pending r)
  then mkRuntime (Some x) (opened r) (List.filter (fun y => negb (Nat.eqb y x)) (pending r))
  else r.

(** The promise of the connection [x] rejects: [openDB] failed. The [then]
    callback of line 43 does not run, so [db] is left as it is. *)
Definition reject (x : IDBPDatabase) (r : Runtime) : Runtime :=
  mkRuntime (db_var r) (opened r)
    (List.filter (fun y => negb (Nat.eqb y x)) (pending r)).

(** The event loop interleaves calls of [db()] with the settling of [openDB]
    promises: [Settle x] fulfils the promise of [x], [Reject x] rejects it. *)
Inductive Event : Type :=
| Call
| Settle (x : IDBPDatabase)
| Reject (x : IDBPDatabase).

(** Runs a schedule; returns, in call order, the connection each call of
    [db()] was handed the promise of. *)
Fixpoint run (es : list Event) (r : Runtime) : Runtime * list IDBPDatabase :=
  match es with
  | [] => (r, [])
  | Call :: es' =>
      let '(r1, x) := db r in
      let '(r2, xs) := run es' r1 in (r2, x :: xs)
  | Settle x :: es' => run es' (settle x r)
  | Reject x :: es' => run es' (reject x r)
  end.

(** ** Record access API (source lines 48-99 declare it without bodies) *)

(** The three object stores of [CryptoID_DB] (lines 126-145), each a map
    from the inline key to the stored value; the schema types the values of
    "profiles" as [ProfileRecord] (line 138). *)
Record Store : Type := mkStore {
  self : gmap string CryptoIDRecordDb;
  others : gmap string CryptoIDRecordDb;
  profiles : gmap string ProfileRecord
}.

Definition emptyStore : Store := mkStore ∅ ∅ ∅.

Record World : Type := mkWorld {
  heap : Heap;
  store : Store
}.

Inductive Partition : Type := Self | Others.

#[global] Instance Partition_eq_dec : EqDecision Partition.
Proof. solve_decision. Defined.

Definition partition (p : Partition) (s : Store) : gmap string CryptoIDRecordDb :=
  match p with
  | Self => self s
  | Others => others s
  end.

Definition setPartition (p : Partition) (m : gmap string CryptoIDRecordDb)
    (s : Store) : Store :=
  match p with
  | Self => mkStore m (others s) (profiles s)
  | Others => mkStore (self s) m (profiles s)
  end.

(** A heap computation run inside the world. *)
Definition onHeap {A} (c : M Heap A) : M World A :=
  fun w => let '(h, r) := c (heap w) in (mkWorld h (store w), r).

(** Modelled from the spec: [Handle.partition(name).get(key)] of the
    storage engine, "atomic per-store get/put/delete". *)
Definition get (p : Partition) (key : string) : M World (option CryptoIDRecordDb) :=
  fun w => (w, Return (partition p (store w) !! key)).

(** Modelled from the spec: what [put] does to the store. The key is read
    from the record through the key path [identifier]; "upsert semantics --
    overwrites an existing record with the same primary key without
    error". *)
Definition putRecord (p : Partition) (x : CryptoIDRecordDb) (s : Store) : Store :=
  setPartition p (<[CryptoID.identifier x := x]> (partition p s)) s.

(** Modelled from the spec: what [delete] does to the store; a key that
    is not there is not an error. *)
Definition deleteKey (p : Partition) (key : string) (s : Store) : Store :=
  setPartition p (delete key (partition p s)) s.

(** Modelled from the spec: [Handle.partition(name).put(value)]. *)
Definition put (p : Partition) (x : CryptoIDRecordDb) : M World unit :=
  fun w => (mkWorld (heap w) (putRecord p x (store w)), Return tt).

(** Modelled from the spec: [Handle.partition(name).delete(key)]. *)
Definition delete_ (p : Partition) (key : string) : M World unit :=
  fun w => (mkWorld (heap w) (deleteKey p key (store w)), Return tt).


(** Modelled from the spec: "routes by presence of private key handle to
    self or others" (and lines 51-52: "If the record contains privateKey,
    it will be stored in the self store. Otherwise, it will be stored in the
    others store."). *)
Definition partitionOf {I} (x : CryptoID.t I) : Partition :=
  match CryptoID.privateKey x with
  | Some _ => Self
  | None => Others
  end.

(** Modelled from the spec: the error kind of "update targeting a missing
    primary key". *)
Definition NotFoundError : Exception := Error "NotFoundError".



(** Modelled from the spec: "a direct get against both partitions in
    sequence (self first, others second), returning the first hit". *)
Definition locate (key : string) : M World (option (Partition * CryptoIDRecordDb)) :=
  let* a := get Self key in
  match a with
  | Some x => ret (Some (Self, x))
  | None =>
      let* b := get Others key in
      match b with
      | Some x => ret (Some (Others, x))
      | None => ret None
      end
  end.



(** [Partial<CryptoIDRecord> & Pick<CryptoIDRecord, 'identifier'>] *)
Module Partial.
Record t : Type := mk {
  identifier : IdentifierObj;
  publicKey : option CryptoKey;
  privateKey : option CryptoKey;
  localKey : option CryptoKey;
  nickname : option string;
  attachedProfiles : option (list loc);
  createdAt : option Date;
  updatedAt : option Date
}.
End Partial.

(** [mode: 'append' | 'overwrite'] (line 73). *)
Inductive Mode : Type := append | overwrite.

(** Modelled from the spec: an optional field of the partial record, when
    present, replaces the old value; "missing fields retain previous
    values". *)
Definition keep {A} (old : option A) (new : option A) : option A :=
  match new with
  | Some a => Some a
  | None => old
  end.

(** Modelled from the spec: the merge of [updateCryptoID_DB]. "overwrite
    replaces every field present in the partial with the new value (missing
    fields retain previous values); append ... must union rather than
    replace [set-valued] fields while still replacing scalar fields". *)
Definition merge (mode : Mode) (old : CryptoIDRecord) (new : Partial.t) : CryptoIDRecord :=
  {| CryptoID.identifier := Partial.identifier new;
     CryptoID.publicKey := default (CryptoID.publicKey old) (Partial.publicKey new);
     CryptoID.privateKey := keep (CryptoID.privateKey old) (Partial.privateKey new);
     CryptoID.localKey := keep (CryptoID.localKey old) (Partial.localKey new);
     CryptoID.nickname := default (CryptoID.nickname old) (Partial.nickname new);
     CryptoID.attachedProfiles :=
       match Partial.attachedProfiles new with
       | None => CryptoID.attachedProfiles old
       | Some ps =>
           match mode with
           | overwrite => ps
           | append => list_union (CryptoID.attachedProfiles old) ps
           end
       end;
     CryptoID.createdAt := default (CryptoID.createdAt old) (Partial.createdAt new);
     CryptoID.updatedAt := default (CryptoID.updatedAt old) (Partial.updatedAt new) |}.

(** Modelled from the spec: [updateCryptoID_DB], declared at lines 71-74.
    "reads the existing record by identifier (must check both partitions);
    if absent, fails with NotFoundError ... After merge, re-evaluates
    partition membership and, if it changed, deletes from the old partition
    and inserts into the new one". *)
Definition updateCryptoID_DB (record : Partial.t) (mode : Mode) : M World unit :=
  let* key := lift (Identifier_toText (Partial.identifier record)) in
  let* hit := locate key in
  match hit with
  | None => throw NotFoundError
  | Some (from, stored) =>
      let* old := onHeap (cryptoKeyRecordOut Identifier_fromString stored) in
      let* x := onHeap (cryptoKeyRecordIn Identifier_toText (merge mode old record)) in
      if decide (partitionOf x = from) then put from x
      else
        let* _ := delete_ from (CryptoID.identifier stored) in
        put (partitionOf x) x
  end.

(** Modelled from the spec: [deleteCryptoID_DB], declared at line 79.
    "deletes from whichever partition currently holds it; deleting a
    non-existent identifier is a no-op". *)
Definition deleteCryptoID_DB (id : IdentifierObj) : M World unit :=
  let* key := lift (Identifier_toText id) in
  let* _ := delete_ Self key in
  delete_ Others key.










(** ** Sample data: the scenario of the specification *)

Definition alice : IdentifierObj :=
  mkIdentifier PersonIdentifierPrototype "person" "alice".

Definition key_abcd : IdentifierObj :=
  mkIdentifier ECKeyIdentifierPrototype "ec_key" "0xABCD".

(** Location 1 holds the key identifier, every other location a person. *)
Definition richHeap : Heap :=
  fun l => match l with 1%positive => key_abcd | _ => alice end.

(** The same objects as structured cloning returns them: own properties
    kept, prototype lost. *)
Definition clonedHeap : Heap :=
  fun l => withPrototype ObjectPrototype (richHeap l).

Definition profile_alice : ProfileRecord :=
  {| Profile.identifier := alice;
     Profile.nickname := Some "Alice";
     Profile.localKey := None;
     Profile.linkedCryptoID := Some 1%positive;
     Profile.createdAt := 0%Z;
     Profile.updatedAt := 0%Z |}.

Definition stored_alice_linking (l : loc) : ProfileRecordDb :=
  {| Profile.identifier := "person:alice";
     Profile.nickname := Some "Alice";
     Profile.localKey := None;
     Profile.linkedCryptoID := Some l;
     Profile.createdAt := 0%Z;
     Profile.updatedAt := 0%Z |}.

Definition stored_alice : ProfileRecordDb := stored_alice_linking 1%positive.

Definition record_K (priv : option CryptoKey) : CryptoIDRecord :=
  {| CryptoID.identifier := key_abcd;
     CryptoID.publicKey := KeyHandle 1;
     CryptoID.privateKey := priv;
     CryptoID.localKey := None;
     CryptoID.nickname := "K";
     CryptoID.attachedProfiles := [2%positive; 3%positive];
     CryptoID.createdAt := 0%Z;
     CryptoID.updatedAt := 0%Z |}.

Definition stored_K (priv : option CryptoKey) : CryptoIDRecordDb :=
  {| CryptoID.identifier := "ec_key:0xABCD";
     CryptoID.publicKey := KeyHandle 1;
     CryptoID.privateKey := priv;
     CryptoID.localKey := None;
     CryptoID.nickname := "K";
     CryptoID.attachedProfiles := [2%positive; 3%positive];
     CryptoID.createdAt := 0%Z;
     CryptoID.updatedAt := 0%Z |}.




(** ** Views of the decoders used to state their properties *)

(** Two heaps whose objects have the same own properties; the prototypes
    may differ, as they do after structured cloning. *)
Definition sameOwnProperties (h h0 : Heap) : Prop :=
  forall l, type (h0 l) = type (h l) /\ data (h0 l) = data (h l).

(** The guard of lines 156-159 as a test: no [linkedCryptoID], or one whose
    [type] is ['ec_key']. *)
Definition linkAccepted (h : Heap) (x : ProfileRecordDb) : bool :=
  match Profile.linkedCryptoID x with
  | Some l => String.eqb (type (h l)) "ec_key"
  | None => true
  end.

(** The record of line 160, which does not depend on the heap. *)
Definition decodedProfile (fromString : string -> Completion IdentifierObj)
    (x : ProfileRecordDb) : Completion ProfileRecord :=
  match fromString (Profile.identifier x) with
  | Return i =>
      Return {| Profile.identifier := i;
                Profile.nickname := Profile.nickname x;
                Profile.localKey := Profile.localKey x;
                Profile.linkedCryptoID := Profile.linkedCryptoID x;
                Profile.createdAt := Profile.createdAt x;
                Profile.updatedAt := Profile.updatedAt x |}
  | Throw e => Throw e
  end.

(** The number of calls of [db()] in a schedule. *)
Definition calls (es : list Event) : nat :=
  length (List.filter (fun e => match e with Call => true | _ => false end) es).


(** Every connection the closure knows of is one [openDB] returned: the
    connections are numbered from 0 in the order of the calls of [openDB]. *)
Definition knownOpened (r : Runtime) : Prop :=
  Forall (fun x => x < opened r) (pending r) /\
  forall x, db_var r = Some x -> x < opened r.

(** ** The decoders on objects that need not be extensible *)

(** [Object.setPrototypeOf(o, p)] succeeds when [o] is extensible or already
    has the prototype [p]; on any other object it throws a TypeError.
    Whether an object is extensible is not changed by the transcoder, so it
    is a parameter beside the heap. *)
Definition canSetPrototype (extensible : loc -> bool) (h : Heap) (p : Prototype)
    (l : loc) : bool :=
  extensible l || bool_decide (proto (h l) = p).

(** The decoders of lines 155-173 over objects of either kind. The
    definitions [setPrototypeOf], [profileOut] and [cryptoKeyRecordOut]
    above are these with every object extensible, as the objects read back
    from an object store are. *)
Module Strict.
Definition setPrototypeOf (extensible : loc -> bool) (l : loc) (p : Prototype)
    : M Heap unit :=
  fun h =>
    if canSetPrototype extensible h p l
    then (fun l' => if decide (l' = l) then withPrototype p (h l) else h l',
          Return tt)
    else (h, Throw (TypeError "#<Object> is not extensible")).

Section Decoders.
Variable fromString : string -> Completion IdentifierObj.
Variable extensible : loc -> bool.

(** Lines 156-159. *)
Definition restoreLinkedCryptoID (x : ProfileRecordDb) : M Heap unit :=
  match Profile.linkedCryptoID x with
  | Some l =>
      let* t := getType l in
      if String.eqb t "ec_key"
      then setPrototypeOf extensible l ECKeyIdentifierPrototype
      else throw (Error "Unknown type of linkedCryptoID")
  | None => ret tt
  end.

Definition profileOut (x : ProfileRecordDb) : M Heap ProfileRecord :=
  let* _ := restoreLinkedCryptoID x in
  let* i := lift (fromString (Profile.identifier x)) in
  ret {| Profile.identifier := i;
         Profile.nickname := Profile.nickname x;
         Profile.localKey := Profile.localKey x;
         Profile.linkedCryptoID := Profile.linkedCryptoID x;
         Profile.createdAt := Profile.createdAt x;
         Profile.updatedAt := Profile.updatedAt x |}.

(** Lines 169-171; the loop stops at the first member that throws. *)
Fixpoint restoreAttachedProfiles (ls : list loc) : M Heap unit :=
  match ls with
  | [] => ret tt
  | each :: rest =>
      let* _ := setPrototypeOf extensible each PersonIdentifierPrototype in
      restoreAttachedProfiles rest
  end.

Definition cryptoKeyRecordOut (x : CryptoIDRecordDb) : M Heap CryptoIDRecord :=
  let* _ := restoreAttachedProfiles (CryptoID.attachedProfiles x) in
  let* i := lift (fromString (CryptoID.identifier x)) in
  ret {| CryptoID.identifier := i;
         CryptoID.publicKey := CryptoID.publicKey x;
         CryptoID.privateKey := CryptoID.privateKey x;
         CryptoID.localKey := CryptoID.localKey x;
         CryptoID.nickname := CryptoID.nickname x;
         CryptoID.attachedProfiles := CryptoID.attachedProfiles x;
         CryptoID.createdAt := CryptoID.createdAt x;
         CryptoID.updatedAt := CryptoID.updatedAt x |}.
End Decoders.
End Strict.

(** Objects none of which is extensible, as after [Object.freeze]. *)
Definition frozen : loc -> bool := fun _ => false.

(** * Properties *)

(** ** The monad *)

Lemma bind_Return {S A B} (c : M S A) (k : A -> M S B) s s' a :
  c s = (s', Return a) -> bind c k s = k a s'.
Proof. intros E. unfold bind. now rewrite E. Qed.


Lemma bind_lift {S A B} (r : Completion A) (k : A -> M S B) s :
  bind (lift r) k s = match r with Return a => k a s | Throw e => (s, Throw e) end.
Proof. unfold bind, lift. now destruct r. Qed.

(** ** The identifier codec *)

Lemma splitTag_person d : splitTag ("person" +:+ ":" +:+ d) = ("person", d).
Proof. reflexivity. Qed.

Lemma splitTag_ec_key d : splitTag ("ec_key" +:+ ":" +:+ d) = ("ec_key", d).
Proof. reflexivity. Qed.

Lemma toText_Return i s :
  Identifier_toText i = Return s ->
  exists tag, tagOf (proto i) = Some tag /\ s = tag +:+ ":" +:+ data i.
Proof.
  unfold Identifier_toText. destruct (tagOf (proto i)) as [tag|]; [|discriminate].
  intros [= <-]. now exists tag.
Qed.

Lemma fromString_toText i s :
  Identifier_toText i = Return s ->
  Identifier_fromString s =
    Return (mkIdentifier (proto i) (default "" (tagOf (proto i))) (data i)).
Proof.
  intros (tag & Htag & ->)%toText_Return. rewrite Htag.
  destruct (proto i); simpl in Htag; try discriminate;
    injection Htag as <-; reflexivity.
Qed.

Lemma codec_round_trip i :
  supported i ->
  exists s, Identifier_toText i = Return s /\ Identifier_fromString s = Return i.
Proof.
  unfold supported. intros Hs.
  destruct (Identifier_toText i) as [s|e] eqn:E.
  - exists s. split; [reflexivity|].
    rewrite (fromString_toText _ _ E), Hs. now destruct i.
  - unfold Identifier_toText in E. now rewrite Hs in E.
Qed.

Lemma isPersonIdentifier_supported i : isPersonIdentifier i -> supported i.
Proof. intros [Hp Ht]. unfold supported. now rewrite Hp, Ht. Qed.

Lemma isECKeyIdentifier_supported i : isECKeyIdentifier i -> supported i.
Proof. intros [Hp Ht]. unfold supported. now rewrite Hp, Ht. Qed.

(** ** Heap effects of the transcoder *)

Lemma withPrototype_idem p q o : withPrototype p (withPrototype q o) = withPrototype p o.
Proof. reflexivity. Qed.

Lemma withPrototype_same o : withPrototype (proto o) o = o.
Proof. now destruct o. Qed.

Lemma restoreAttachedProfiles_spec ls : forall h,
  snd (restoreAttachedProfiles ls h) = Return tt /\
  forall l, fst (restoreAttachedProfiles ls h) l =
            if decide (l ∈ ls) then withPrototype PersonIdentifierPrototype (h l)
            else h l.
Proof.
  induction ls as [|a ls IH]; intros h.
  - split; [reflexivity|]. intros l. simpl.
    destruct (decide (l ∈ [])) as [Hin|Hin]; [|reflexivity]. now apply elem_of_nil in Hin.
  - simpl restoreAttachedProfiles. unfold bind, setPrototypeOf.
    destruct (IH (fun l' => if decide (l' = a)
                            then withPrototype PersonIdentifierPrototype (h a)
                            else h l')) as [IHs IHf].
    split; [exact IHs|]. intros l. rewrite IHf.
    destruct (decide (l ∈ ls)) as [Hin|Hin];
      destruct (decide (l ∈ a :: ls)) as [Hin'|Hin'];
      destruct (decide (l = a)) as [->|Hne]; try reflexivity;
      rewrite elem_of_cons in Hin'; tauto.
Qed.

Lemma restoreAttachedProfiles_Return ls h :
  restoreAttachedProfiles ls h = (fst (restoreAttachedProfiles ls h), Return tt).
Proof.
  destruct (restoreAttachedProfiles_spec ls h) as [Hs _].
  destruct (restoreAttachedProfiles ls h) as [h' r]. simpl in *. now subst.
Qed.

Section TranscoderFacts.
Variable toText : IdentifierObj -> Completion string.
Variable fromString : string -> Completion IdentifierObj.

Lemma profileIn_heap x h : fst (profileIn toText x h) = h.
Proof. unfold profileIn. rewrite bind_lift. now destruct (toText _). Qed.

Lemma cryptoKeyRecordIn_heap x h : fst (cryptoKeyRecordIn toText x h) = h.
Proof. unfold cryptoKeyRecordIn. rewrite bind_lift. now destruct (toText _). Qed.

Lemma cryptoKeyRecordOut_eq x h :
  cryptoKeyRecordOut fromString x h =
    (fst (restoreAttachedProfiles (CryptoID.attachedProfiles x) h),
     decoded fromString x).
Proof.
  unfold cryptoKeyRecordOut, decoded.
  rewrite (bind_Return _ _ _ _ _ (restoreAttachedProfiles_Return _ h)).
  rewrite bind_lift. now destruct (fromString _).
Qed.

Lemma restoreLinkedCryptoID_cases x h :
  match Profile.linkedCryptoID x with
  | None => restoreLinkedCryptoID x h = (h, Return tt)
  | Some l =>
      if String.eqb (type (h l)) "ec_key"
      then restoreLinkedCryptoID x h =
             (fun l' => if decide (l' = l)
                        then withPrototype ECKeyIdentifierPrototype (h l)
                        else h l', Return tt)
      else restoreLinkedCryptoID x h =
             (h, Throw (Error "Unknown type of linkedCryptoID"))
  end.
Proof.
  unfold restoreLinkedCryptoID.
  destruct (Profile.linkedCryptoID x) as [l|]; [|reflexivity].
  unfold bind, getType. now destruct (String.eqb (type (h l)) "ec_key").
Qed.
End TranscoderFacts.

Section TranscoderReturns.
Variable toText : IdentifierObj -> Completion string.
Variable fromString : string -> Completion IdentifierObj.

Lemma profileIn_Return x h s :
  toText (Profile.identifier x) = Return s ->
  profileIn toText x h =
    (h, Return {| Profile.identifier := s;
                  Profile.nickname := Profile.nickname x;
                  Profile.localKey := Profile.localKey x;
                  Profile.linkedCryptoID := Profile.linkedCryptoID x;
                  Profile.createdAt := Profile.createdAt x;
                  Profile.updatedAt := Profile.updatedAt x |}).
Proof. intros E. unfold profileIn. now rewrite bind_lift, E. Qed.

Lemma cryptoKeyRecordIn_Return x h s :
  toText (CryptoID.identifier x) = Return s ->
  cryptoKeyRecordIn toText x h =
    (h, Return {| CryptoID.identifier := s;
                  CryptoID.publicKey := CryptoID.publicKey x;
                  CryptoID.privateKey := CryptoID.privateKey x;
                  CryptoID.localKey := CryptoID.localKey x;
                  CryptoID.nickname := CryptoID.nickname x;
                  CryptoID.attachedProfiles := CryptoID.attachedProfiles x;
                  CryptoID.createdAt := CryptoID.createdAt x;
                  CryptoID.updatedAt := CryptoID.updatedAt x |}).
Proof. intros E. unfold cryptoKeyRecordIn. now rewrite bind_lift, E. Qed.

Lemma cryptoKeyRecordIn_Throw x h e :
  toText (CryptoID.identifier x) = Throw e ->
  cryptoKeyRecordIn toText x h = (h, Throw e).
Proof. intros E. unfold cryptoKeyRecordIn. now rewrite bind_lift, E. Qed.

Lemma profileOut_eq x h :
  profileOut fromString x h =
    match restoreLinkedCryptoID x h with
    | (h', Return _) =>
        (h', match fromString (Profile.identifier x) with
             | Return i =>
                 Return {| Profile.identifier := i;
                           Profile.nickname := Profile.nickname x;
                           Profile.localKey := Profile.localKey x;
                           Profile.linkedCryptoID := Profile.linkedCryptoID x;
                           Profile.createdAt := Profile.createdAt x;
                           Profile.updatedAt := Profile.updatedAt x |}
             | Throw e => Throw e
             end)
    | (h', Throw e) => (h', Throw e)
    end.
Proof.
  unfold profileOut, bind at 1.
  destruct (restoreLinkedCryptoID x h) as [h' [[]|e]]; [|reflexivity].
  rewrite bind_lift. now destruct (fromString _).
Qed.
End TranscoderReturns.

(** ** C1: round trip *)

(** C1. Decoding the canonical string of an identifier of a supported
    variant gives back the identifier, prototype included; a CryptoID record
    sent through [cryptoKeyRecordIn] and then [cryptoKeyRecordOut] comes
    back equal and leaves every object as it was, and so does a profile
    record (whose linked identifier is absent or an EC key identifier) sent
    through [profileIn] and then [profileOut]. *)
Theorem transcoder_round_trip :
  (forall i, supported i ->
     exists s, Identifier_toText i = Return s /\
               Identifier_fromString s = Return i) /\
  (forall h r, wellTypedCryptoID h r ->
     exists h',
       bind (cryptoKeyRecordIn Identifier_toText r)
            (cryptoKeyRecordOut Identifier_fromString) h = (h', Return r) /\
       forall l, h' l = h l) /\
  (forall h p, wellTypedProfile h p ->
     exists h',
       bind (profileIn Identifier_toText p)
            (profileOut Identifier_fromString) h = (h', Return p) /\
       forall l, h' l = h l).
Proof.
  split; [exact codec_round_trip|]. split.
  - intros h r [Hid Hatt].
    destruct (codec_round_trip _ (isECKeyIdentifier_supported _ Hid)) as (s & Es & Ds).
    eexists. split.
    + rewrite (bind_Return _ _ _ _ _ (cryptoKeyRecordIn_Return _ r h s Es)).
      rewrite cryptoKeyRecordOut_eq. unfold decoded. simpl. rewrite Ds.
      destruct r. reflexivity.
    + intros l. simpl.
      destruct (restoreAttachedProfiles_spec (CryptoID.attachedProfiles r) h) as [_ Hf].
      rewrite Hf. destruct (decide (l ∈ CryptoID.attachedProfiles r)) as [Hin|]; [|reflexivity].
      destruct (Hatt l Hin) as [Hp _]. rewrite <- Hp. apply withPrototype_same.
  - intros h p [Hid Hlink].
    destruct (codec_round_trip _ (isPersonIdentifier_supported _ Hid)) as (s & Es & Ds).
    rewrite (bind_Return _ _ _ _ _ (profileIn_Return _ p h s Es)).
    rewrite profileOut_eq. simpl Profile.identifier. rewrite Ds.
    match goal with |- context [restoreLinkedCryptoID ?x h] =>
      pose proof (restoreLinkedCryptoID_cases x h) as Hc end.
    simpl Profile.linkedCryptoID in Hc.
    destruct (Profile.linkedCryptoID p) as [l0|] eqn:El.
    + destruct (Hlink l0 eq_refl) as [Hp Ht]. rewrite Ht in Hc. simpl in Hc.
      rewrite Hc. eexists. split.
      * simpl. destruct p. simpl in *. now subst.
      * intros l. simpl. destruct (decide (l = l0)) as [->|]; [|reflexivity].
        rewrite <- Hp. apply withPrototype_same.
    + rewrite Hc. exists h. split; [|reflexivity].
      destruct p. simpl in *. now subst.
Qed.

Lemma transcoder_round_trip_witness :
  (exists s, Identifier_toText key_abcd = Return s /\
             Identifier_fromString s = Return key_abcd) /\
  (exists h',
     bind (cryptoKeyRecordIn Identifier_toText (record_K None))
          (cryptoKeyRecordOut Identifier_fromString) richHeap
       = (h', Return (record_K None)) /\
     forall l, h' l = richHeap l) /\
  (exists h',
     bind (profileIn Identifier_toText profile_alice)
          (profileOut Identifier_fromString) richHeap
       = (h', Return profile_alice) /\
     forall l, h' l = richHeap l).
Proof.
  destruct transcoder_round_trip as (H1 & H2 & H3).
  split; [|split].
  - apply H1. reflexivity.
  - apply H2. split; [split; reflexivity|].
    intros l Hl. simpl in Hl.
    apply elem_of_cons in Hl as [->|Hl]; [split; reflexivity|].
    apply elem_of_cons in Hl as [->|Hl]; [split; reflexivity|].
    now apply elem_of_nil in Hl.
  - apply H3. split; [split; reflexivity|].
    intros l [= <-]. split; reflexivity.
Defined.

(** ** C9: what the encoders change *)

(** C9. [profileIn] returns its input with [identifier] replaced by the
    identifier's canonical string and every other field as it was;
    [linkedCryptoID] is the same object reference and no object is touched.
    [cryptoKeyRecordIn] does the same, [attachedProfiles] included. *)
Theorem encoders_replace_identifier_only :
  forall (toText : IdentifierObj -> Completion string) (h : Heap),
    (forall (x : ProfileRecord) s,
       toText (Profile.identifier x) = Return s ->
       exists y, profileIn toText x h = (h, Return y) /\
         Profile.identifier y = s /\
         Profile.nickname y = Profile.nickname x /\
         Profile.localKey y = Profile.localKey x /\
         Profile.linkedCryptoID y = Profile.linkedCryptoID x /\
         Profile.createdAt y = Profile.createdAt x /\
         Profile.updatedAt y = Profile.updatedAt x) /\
    (forall (x : CryptoIDRecord) s,
       toText (CryptoID.identifier x) = Return s ->
       exists y, cryptoKeyRecordIn toText x h = (h, Return y) /\
         CryptoID.identifier y = s /\
         CryptoID.publicKey y = CryptoID.publicKey x /\
         CryptoID.privateKey y = CryptoID.privateKey x /\
         CryptoID.localKey y = CryptoID.localKey x /\
         CryptoID.nickname y = CryptoID.nickname x /\
         CryptoID.attachedProfiles y = CryptoID.attachedProfiles x /\
         CryptoID.createdAt y = CryptoID.createdAt x /\
         CryptoID.updatedAt y = CryptoID.updatedAt x).
Proof.
  intros toText h. split; intros x s E.
  - eexists. split; [apply profileIn_Return, E|]. repeat split.
  - eexists. split; [apply cryptoKeyRecordIn_Return, E|]. repeat split.
Qed.

Lemma encoders_replace_identifier_only_witness :
  (exists y, profileIn Identifier_toText profile_alice richHeap = (richHeap, Return y) /\
     Profile.identifier y = "person:alice" /\
     Profile.nickname y = Some "Alice" /\
     Profile.localKey y = None /\
     Profile.linkedCryptoID y = Some 1%positive /\
     Profile.createdAt y = 0%Z /\
     Profile.updatedAt y = 0%Z) /\
  (exists y, cryptoKeyRecordIn Identifier_toText (record_K None) richHeap
               = (richHeap, Return y) /\
     CryptoID.identifier y = "ec_key:0xABCD" /\
     CryptoID.publicKey y = KeyHandle 1 /\
     CryptoID.privateKey y = None /\
     CryptoID.localKey y = None /\
     CryptoID.nickname y = "K" /\
     CryptoID.attachedProfiles y = [2%positive; 3%positive] /\
     CryptoID.createdAt y = 0%Z /\
     CryptoID.updatedAt y = 0%Z).
Proof.
  destruct (encoders_replace_identifier_only Identifier_toText richHeap) as [Hp Hc].
  split.
  - apply (Hp profile_alice "person:alice"). reflexivity.
  - apply (Hc (record_K None) "ec_key:0xABCD"). reflexivity.
Defined.

(** ** C4: the linked identifier on decode *)

(** C4. For a stored profile with a [linkedCryptoID]: when its [type] is
    ['ec_key'], [profileOut] gives the object [ECKeyIdentifier.prototype]
    and, the primary identifier parsing, returns the record with that link;
    for any other [type] it throws [Error('Unknown type of linkedCryptoID')]
    (the decode failure) without touching the heap; and a record it returns
    never links an object that is not an EC key identifier. *)
Theorem profileOut_linkedCryptoID :
  forall (fromString : string -> Completion IdentifierObj)
         (x : ProfileRecordDb) (h : Heap) (l : loc),
    Profile.linkedCryptoID x = Some l ->
    (type (h l) = "ec_key" ->
       fst (profileOut fromString x h) l
         = withPrototype ECKeyIdentifierPrototype (h l) /\
       forall i, fromString (Profile.identifier x) = Return i ->
         exists y, snd (profileOut fromString x h) = Return y /\
                   Profile.identifier y = i /\
                   Profile.linkedCryptoID y = Some l) /\
    (type (h l) <> "ec_key" ->
       profileOut fromString x h
         = (h, Throw (Error "Unknown type of linkedCryptoID"))) /\
    (forall y, snd (profileOut fromString x h) = Return y ->
       Profile.linkedCryptoID y = Some l /\
       isECKeyIdentifier (fst (profileOut fromString x h) l)).
Proof.
  intros fromString x h l El.
  pose proof (restoreLinkedCryptoID_cases x h) as Hc. rewrite El in Hc.
  rewrite profileOut_eq.
  destruct (String.eqb (type (h l)) "ec_key") eqn:Et; rewrite Hc.
  - apply String.eqb_eq in Et. split; [|split].
    + intros _. simpl. split.
      * destruct (decide (l = l)); [reflexivity|congruence].
      * intros i Ei. rewrite Ei. eexists. split; [reflexivity|]. now split.
    + congruence.
    + simpl. intros y Hy. destruct (fromString _); [|discriminate].
      injection Hy as <-. simpl. split; [exact El|].
      destruct (decide (l = l)); [|congruence]. now split.
  - apply String.eqb_neq in Et. split; [|split].
    + congruence.
    + reflexivity.
    + simpl. discriminate.
Qed.

Lemma profileOut_linkedCryptoID_witness :
  (fst (profileOut Identifier_fromString stored_alice clonedHeap) 1%positive
     = withPrototype ECKeyIdentifierPrototype (clonedHeap 1%positive) /\
   forall i, Identifier_fromString "person:alice" = Return i ->
     exists y, snd (profileOut Identifier_fromString stored_alice clonedHeap) = Return y /\
               Profile.identifier y = i /\
               Profile.linkedCryptoID y = Some 1%positive) /\
  (forall y, snd (profileOut Identifier_fromString stored_alice clonedHeap) = Return y ->
     Profile.linkedCryptoID y = Some 1%positive /\
     isECKeyIdentifier (fst (profileOut Identifier_fromString stored_alice clonedHeap) 1%positive)) /\
  profileOut Identifier_fromString (stored_alice_linking 2%positive) clonedHeap
    = (clonedHeap, Throw (Error "Unknown type of linkedCryptoID")).
Proof.
  destruct (profileOut_linkedCryptoID Identifier_fromString stored_alice clonedHeap
              1%positive eq_refl) as (Hk & _ & Hr).
  destruct (profileOut_linkedCryptoID Identifier_fromString (stored_alice_linking 2%positive)
              clonedHeap 2%positive eq_refl) as (_ & Hu & _).
  split; [apply Hk; reflexivity | split; [exact Hr | apply Hu; discriminate]].
Defined.

(** ** C3: side effects of the transcoder *)

(** C3, as it fails. [profileOut] changes an object nested in its input: the
    linked identifier of the stored profile, which has the plain object
    prototype before the call, has [ECKeyIdentifier.prototype] after it. *)
Lemma profileOut_patches_linkedCryptoID :
  Profile.linkedCryptoID stored_alice = Some 1%positive /\
  proto (clonedHeap 1%positive) = ObjectPrototype /\
  proto (fst (profileOut Identifier_fromString stored_alice clonedHeap) 1%positive)
    = ECKeyIdentifierPrototype /\
  fst (profileOut Identifier_fromString stored_alice clonedHeap) 1%positive
    <> clonedHeap 1%positive.
Proof. repeat split. discriminate. Qed.

(** ** C8: the schema upgrade *)

Lemma hasStore_app name (s t : Schema) :
  hasStore name (s ++ t)%list = hasStore name s || hasStore name t.
Proof. unfold hasStore. apply existsb_app. Qed.

Lemma find_store_app name (s t : Schema) :
  hasStore name s = false ->
  List.find (fun o => String.eqb (storeName o) name) (s ++ t)%list
    = List.find (fun o => String.eqb (storeName o) name) t.
Proof.
  induction s as [|o s IH]; [reflexivity|]. simpl.
  destruct (String.eqb (storeName o) name); [discriminate|]. exact IH.
Qed.

Lemma addIndex_app name ix (s t : Schema) :
  hasStore name s = false ->
  addIndex name ix (s ++ t)%list = (s ++ addIndex name ix t)%list.
Proof.
  induction s as [|o s IH]; [reflexivity|]. simpl.
  destruct (String.eqb (storeName o) name); [discriminate|].
  intros H. now rewrite (IH H).
Qed.

(** The object stores [v0_v1] creates. *)
Lemma v0_v1_creates (s : Schema) :
  hasStore "self" s = false ->
  hasStore "others" s = false ->
  hasStore "profiles" s = false ->
  v0_v1 s =
    ((s ++ [mkObjectStore "self" "identifier" [];
            mkObjectStore "others" "identifier" [];
            mkObjectStore "profiles" "identifier" [mkIndex "network" "network" false]])%list,
     Return tt).
Proof.
  intros Hs Ho Hp. unfold v0_v1, bind, createObjectStore, createIndex.
  rewrite Hs, hasStore_app, Ho. simpl.
  rewrite hasStore_app, hasStore_app, Hp. simpl.
  rewrite <- !app_assoc. simpl.
  rewrite (find_store_app _ _ _ Hp). simpl.
  now rewrite (addIndex_app _ _ _ _ Hp).
Qed.

(** C8. From previous version 0 the upgrade creates exactly the object
    stores "self", "others" and "profiles", each keyed inline by
    [identifier], and on "profiles" the one non-unique index "network" over
    the field [network]: these three make up the schema of a new database,
    and are what is added to a schema that has none of the three names. From
    a previous version of 1 or more the upgrade runs no step and leaves the
    schema as it is. *)
Theorem upgrade_creates_schema_once :
  (forall newVersion,
     upgrade 0 newVersion [] =
       ([mkObjectStore "self" "identifier" [];
         mkObjectStore "others" "identifier" [];
         mkObjectStore "profiles" "identifier" [mkIndex "network" "network" false]],
        Return tt)) /\
  (forall newVersion (s : Schema),
     hasStore "self" s = false ->
     hasStore "others" s = false ->
     hasStore "profiles" s = false ->
     upgrade 0 newVersion s =
       ((s ++ [mkObjectStore "self" "identifier" [];
               mkObjectStore "others" "identifier" [];
               mkObjectStore "profiles" "identifier"
                 [mkIndex "network" "network" false]])%list,
        Return tt)) /\
  (forall oldVersion newVersion (s : Schema),
     (1 <= oldVersion)%N -> upgrade oldVersion newVersion s = (s, Return tt)).
Proof.
  split; [|split].
  - intros newVersion. reflexivity.
  - intros newVersion s Hs Ho Hp. unfold upgrade. simpl N.ltb.
    exact (v0_v1_creates s Hs Ho Hp).
  - intros oldVersion newVersion s Hv. unfold upgrade.
    destruct (N.ltb_spec oldVersion 1) as [Hlt|_]; [lia|reflexivity].
Qed.

Lemma upgrade_creates_schema_once_witness :
  upgrade 0 1 [mkObjectStore "drafts" "id" []] =
    ([mkObjectStore "drafts" "id" [];
      mkObjectStore "self" "identifier" [];
      mkObjectStore "others" "identifier" [];
      mkObjectStore "profiles" "identifier" [mkIndex "network" "network" false]],
     Return tt) /\
  upgrade 1 1 [mkObjectStore "self" "identifier" []]
    = ([mkObjectStore "self" "identifier" []], Return tt).
Proof.
  destruct upgrade_creates_schema_once as (_ & H0 & H1).
  split.
  - apply (H0 1%N [mkObjectStore "drafts" "id" []]); reflexivity.
  - apply H1. lia.
Defined.

(** ** C5: opening the database *)

(** Once the variable [db] holds a connection, [db()] hands it out and does
    not call [openDB]. *)
Lemma db_ready r x : db_var r = Some x -> db r = (r, x).
Proof. intros E. unfold db. now rewrite E. Qed.

Lemma run_ready n r x :
  db_var r = Some x -> run (replicate n Call) r = (r, replicate n x).
Proof.
  intros E. induction n as [|n IH]; [reflexivity|].
  simpl. rewrite (db_ready _ _ E), IH. reflexivity.
Qed.

(** Calls made one after the other, the first one settled before the next
    is made, open the database once. *)
Lemma db_sequential_calls n :
  run (Call :: Settle 0 :: replicate n Call) initial
    = (mkRuntime (Some 0) 1 [], 0 :: replicate n 0).
Proof.
  simpl. change (settle 0 _) with (mkRuntime (Some 0) 1 []).
  now rewrite (run_ready n (mkRuntime (Some 0) 1 []) 0 eq_refl).
Qed.

(** As long as no promise has settled, every call of [db()] calls [openDB]
    again and hands out a connection of its own. *)
Lemma db_calls_before_settle n : forall r,
  db_var r = None ->
  run (replicate n Call) r =
    (mkRuntime None (opened r + n) (pending r ++ seq (opened r) n)%list,
     seq (opened r) n).
Proof.
  induction n as [|n IH]; intros r E.
  - simpl. rewrite Nat.add_0_r, app_nil_r. now destruct r; simpl in *; subst.
  - simpl. unfold db at 1. rewrite E.
    rewrite (IH (mkRuntime None (S (opened r)) (pending r ++ [opened r])%list) eq_refl).
    simpl. rewrite <- app_assoc. simpl. do 3 f_equal. lia.
Qed.

(** C5. Two calls of [db()] made before the first [openDB] promise settles
    both find [db] undefined: [openDB] is called twice and the two callers
    obtain different connections; when both promises have settled the
    variable has been assigned twice and holds the second connection. *)
Theorem db_concurrent_first_calls_open_twice :
  run [Call; Call] initial = (mkRuntime None 2 [0; 1], [0; 1]) /\
  run [Call; Call; Settle 0; Call; Settle 1; Call] initial
    = (mkRuntime (Some 1) 2 [], [0; 1; 0; 1]).
Proof. split; reflexivity. Qed.

(** ** The record access API: effects on the store *)


Lemma setPartition_same p s : setPartition p (partition p s) s = s.
Proof. destruct p, s; reflexivity. Qed.

Lemma deleteKey_absent p key s : partition p s !! key = None -> deleteKey p key s = s.
Proof.
  intros E. unfold deleteKey. rewrite (delete_id _ _ E). apply setPartition_same.
Qed.

Lemma world_eta w : mkWorld (heap w) (store w) = w.
Proof. now destruct w. Qed.




Lemma locate_eq key w :
  locate key w =
    (w, Return match self (store w) !! key with
               | Some x => Some (Self, x)
               | None =>
                   match others (store w) !! key with
                   | Some x => Some (Others, x)
                   | None => None
                   end
               end).
Proof.
  unfold locate, bind, get, ret. simpl.
  destruct (self (store w) !! key); [reflexivity|].
  now destruct (others (store w) !! key).
Qed.











Lemma partitionOf_Self {I} (x : CryptoID.t I) :
  partitionOf x = Self -> is_Some (CryptoID.privateKey x).
Proof. unfold partitionOf. destruct (CryptoID.privateKey x); [eauto|discriminate]. Qed.

Lemma partitionOf_Others {I} (x : CryptoID.t I) :
  partitionOf x = Others -> CryptoID.privateKey x = None.
Proof. unfold partitionOf. now destruct (CryptoID.privateKey x). Qed.

(** ** C6: unknown identifiers *)

(** C6. With an identifier whose canonical string is a key of neither
    "self" nor "others", [updateCryptoID_DB] throws NotFoundError and
    [deleteCryptoID_DB] returns; both leave the world as it was. *)
Theorem unknown_identifier_update_fails_delete_succeeds :
  forall w i key,
    Identifier_toText i = Return key ->
    self (store w) !! key = None ->
    others (store w) !! key = None ->
    (forall record mode, Partial.identifier record = i ->
       updateCryptoID_DB record mode w = (w, Throw NotFoundError)) /\
    deleteCryptoID_DB i w = (w, Return tt).
Proof.
  intros w i key E Hself Hothers. split.
  - intros record mode Hi. unfold updateCryptoID_DB. rewrite bind_lift, Hi, E.
    unfold bind. now rewrite locate_eq, Hself, Hothers.
  - unfold deleteCryptoID_DB. rewrite bind_lift, E.
    unfold bind, delete_. cbn [fst store heap].
    rewrite (deleteKey_absent Self key _ Hself).
    rewrite (deleteKey_absent Others key _ Hothers). now rewrite world_eta.
Qed.

Lemma unknown_identifier_update_fails_delete_succeeds_witness :
  (forall record mode, Partial.identifier record = key_abcd ->
     updateCryptoID_DB record mode (mkWorld richHeap emptyStore)
       = (mkWorld richHeap emptyStore, Throw NotFoundError)) /\
  deleteCryptoID_DB key_abcd (mkWorld richHeap emptyStore)
    = (mkWorld richHeap emptyStore, Return tt).
Proof.
  apply (unknown_identifier_update_fails_delete_succeeds
           (mkWorld richHeap emptyStore) key_abcd "ec_key:0xABCD"); reflexivity.
Defined.

(** ** C7: queries *)









(** * Further properties of the transcoder *)

Section DecoderViews.
Variable fromString : string -> Completion IdentifierObj.

Lemma cryptoKeyRecordOut_heap x h l :
  fst (cryptoKeyRecordOut fromString x h) l =
    if decide (l ∈ CryptoID.attachedProfiles x)
    then withPrototype PersonIdentifierPrototype (h l)
    else h l.
Proof. rewrite cryptoKeyRecordOut_eq. simpl. apply restoreAttachedProfiles_spec. Qed.

Lemma cryptoKeyRecordOut_result x h :
  snd (cryptoKeyRecordOut fromString x h) = decoded fromString x.
Proof. now rewrite cryptoKeyRecordOut_eq. Qed.

Lemma profileOut_heap x h l :
  fst (profileOut fromString x h) l =
    if linkAccepted h x && bool_decide (Profile.linkedCryptoID x = Some l)
    then withPrototype ECKeyIdentifierPrototype (h l)
    else h l.
Proof.
  rewrite profileOut_eq. unfold linkAccepted.
  pose proof (restoreLinkedCryptoID_cases x h) as Hc.
  destruct (Profile.linkedCryptoID x) as [l0|].
  - destruct (String.eqb (type (h l0)) "ec_key"); rewrite Hc; simpl; [|reflexivity].
    destruct (decide (l = l0)) as [->|Hne].
    + now rewrite bool_decide_eq_true_2.
    + rewrite bool_decide_eq_false_2; [reflexivity|congruence].
  - rewrite Hc. reflexivity.
Qed.

Lemma profileOut_result x h :
  snd (profileOut fromString x h) =
    if linkAccepted h x then decodedProfile fromString x
    else Throw (Error "Unknown type of linkedCryptoID").
Proof.
  rewrite profileOut_eq. unfold linkAccepted, decodedProfile.
  pose proof (restoreLinkedCryptoID_cases x h) as Hc.
  destruct (Profile.linkedCryptoID x) as [l0|].
  - destruct (String.eqb (type (h l0)) "ec_key"); rewrite Hc; reflexivity.
  - rewrite Hc. reflexivity.
Qed.

Lemma profileOut_type x h l :
  type (fst (profileOut fromString x h) l) = type (h l).
Proof. rewrite profileOut_heap. now destruct (_ && _). Qed.

Lemma cryptoKeyRecordOut_type x h l :
  type (fst (cryptoKeyRecordOut fromString x h) l) = type (h l).
Proof. rewrite cryptoKeyRecordOut_heap. now destruct (decide _). Qed.

Lemma linkAccepted_ext h h' x :
  (forall l, type (h' l) = type (h l)) -> linkAccepted h' x = linkAccepted h x.
Proof.
  intros H. unfold linkAccepted. destruct (Profile.linkedCryptoID x); [|reflexivity].
  now rewrite H.
Qed.
End DecoderViews.

(** X1. Decoding a stored record a second time changes nothing more: the
    second call of [cryptoKeyRecordOut] (of [profileOut]) on the same record
    gives the same result and leaves every object as the first call left
    it. *)
Theorem decoders_idempotent :
  forall (fromString : string -> Completion IdentifierObj) (h : Heap),
    (forall x,
       snd (cryptoKeyRecordOut fromString x (fst (cryptoKeyRecordOut fromString x h)))
         = snd (cryptoKeyRecordOut fromString x h) /\
       forall l,
         fst (cryptoKeyRecordOut fromString x (fst (cryptoKeyRecordOut fromString x h))) l
           = fst (cryptoKeyRecordOut fromString x h) l) /\
    (forall x,
       snd (profileOut fromString x (fst (profileOut fromString x h)))
         = snd (profileOut fromString x h) /\
       forall l,
         fst (profileOut fromString x (fst (profileOut fromString x h))) l
           = fst (profileOut fromString x h) l).
Proof.
  intros fromString h. split; intros x; split.
  - now rewrite !cryptoKeyRecordOut_result.
  - intros l. rewrite (cryptoKeyRecordOut_heap _ x (fst _)), cryptoKeyRecordOut_heap.
    now destruct (decide _).
  - rewrite !profileOut_result.
    now rewrite (linkAccepted_ext h _ x (profileOut_type fromString x h)).
  - intros l. rewrite (profileOut_heap _ x (fst _)).
    rewrite (linkAccepted_ext h _ x (profileOut_type fromString x h)).
    rewrite profileOut_heap. now destruct (_ && _).
Qed.

(** X2. A CryptoID record survives the loss of prototypes: encode it, run
    the decoder over any heap whose objects have the same own properties
    (whatever their prototypes), and the record comes back with every member
    of [attachedProfiles] exactly as it was; no other object is touched. *)
Theorem cryptoKeyRecord_restored_from_own_properties :
  forall (toText : IdentifierObj -> Completion string)
         (fromString : string -> Completion IdentifierObj)
         (h h0 : Heap) (r : CryptoIDRecord) (s : string),
    (forall l, l ∈ CryptoID.attachedProfiles r ->
       proto (h l) = PersonIdentifierPrototype) ->
    sameOwnProperties h h0 ->
    toText (CryptoID.identifier r) = Return s ->
    fromString s = Return (CryptoID.identifier r) ->
    exists h',
      bind (cryptoKeyRecordIn toText r) (cryptoKeyRecordOut fromString) h0
        = (h', Return r) /\
      (forall l, l ∈ CryptoID.attachedProfiles r -> h' l = h l) /\
      (forall l, l ∉ CryptoID.attachedProfiles r -> h' l = h0 l).
Proof.
  intros toText fromString h h0 r s Hatt Hown Es Ds.
  rewrite (bind_Return _ _ _ _ _ (cryptoKeyRecordIn_Return _ r h0 s Es)).
  eexists. split; [|split].
  - rewrite cryptoKeyRecordOut_eq. unfold decoded. simpl. rewrite Ds.
    destruct r. reflexivity.
  - intros l Hl. simpl. rewrite (proj2 (restoreAttachedProfiles_spec _ h0)).
    destruct (decide _) as [_|Hn]; [|contradiction].
    destruct (Hown l) as [Ht Hd]. specialize (Hatt l Hl).
    unfold withPrototype. rewrite Ht, Hd, <- Hatt. now destruct (h l).
  - intros l Hl. simpl. rewrite (proj2 (restoreAttachedProfiles_spec _ h0)).
    now destruct (decide _).
Qed.

Lemma cryptoKeyRecord_restored_from_own_properties_witness :
  exists h',
    bind (cryptoKeyRecordIn Identifier_toText (record_K None))
         (cryptoKeyRecordOut Identifier_fromString) clonedHeap
      = (h', Return (record_K None)) /\
    (forall l, l ∈ CryptoID.attachedProfiles (record_K None) -> h' l = richHeap l) /\
    (forall l, l ∉ CryptoID.attachedProfiles (record_K None) -> h' l = clonedHeap l).
Proof.
  apply (cryptoKeyRecord_restored_from_own_properties
           Identifier_toText Identifier_fromString richHeap clonedHeap
           (record_K None) "ec_key:0xABCD").
  - intros l Hl. simpl in Hl.
    apply elem_of_cons in Hl as [->|Hl]; [reflexivity|].
    apply elem_of_cons in Hl as [->|Hl]; [reflexivity|].
    now apply elem_of_nil in Hl.
  - intros l. split; reflexivity.
  - reflexivity.
  - reflexivity.
Defined.

(** X3. A profile record survives the loss of prototypes in the same way:
    with a linked identifier that is an EC key identifier (or none), encode
    it, run the decoder over any heap with the same own properties, and the
    record comes back with the linked identifier exactly as it was; no other
    object is touched. *)
Theorem profile_restored_from_own_properties :
  forall (toText : IdentifierObj -> Completion string)
         (fromString : string -> Completion IdentifierObj)
         (h h0 : Heap) (p : ProfileRecord) (s : string),
    (forall l, Profile.linkedCryptoID p = Some l -> isECKeyIdentifier (h l)) ->
    sameOwnProperties h h0 ->
    toText (Profile.identifier p) = Return s ->
    fromString s = Return (Profile.identifier p) ->
    exists h',
      bind (profileIn toText p) (profileOut fromString) h0 = (h', Return p) /\
      (forall l, Profile.linkedCryptoID p = Some l -> h' l = h l) /\
      (forall l, Profile.linkedCryptoID p <> Some l -> h' l = h0 l).
Proof.
  intros toText fromString h h0 p s Hlink Hown Es Ds.
  rewrite (bind_Return _ _ _ _ _ (profileIn_Return _ p h0 s Es)).
  set (x := {| Profile.identifier := s;
               Profile.nickname := Profile.nickname p;
               Profile.localKey := Profile.localKey p;
               Profile.linkedCryptoID := Profile.linkedCryptoID p;
               Profile.createdAt := Profile.createdAt p;
               Profile.updatedAt := Profile.updatedAt p |}).
  assert (Hacc : linkAccepted h0 x = true).
  { unfold linkAccepted. simpl. destruct (Profile.linkedCryptoID p) as [l|]; [|reflexivity].
    destruct (Hlink l eq_refl) as [_ Ht]. destruct (Hown l) as [Ht0 _].
    rewrite Ht0, Ht. reflexivity. }
  exists (fst (profileOut fromString x h0)). split; [|split].
  - rewrite (surjective_pairing (profileOut fromString x h0)). f_equal.
    rewrite profileOut_result, Hacc. unfold decodedProfile. simpl. rewrite Ds.
    destruct p. reflexivity.
  - intros l El. rewrite profileOut_heap, Hacc. simpl.
    rewrite bool_decide_eq_true_2 by exact El.
    destruct (Hlink l El) as [Hp _]. destruct (Hown l) as [Ht Hd].
    unfold withPrototype. rewrite Ht, Hd, <- Hp. now destruct (h l).
  - intros l El. rewrite profileOut_heap. simpl.
    rewrite bool_decide_eq_false_2 by exact El. now rewrite andb_false_r.
Qed.

Lemma profile_restored_from_own_properties_witness :
  exists h',
    bind (profileIn Identifier_toText profile_alice)
         (profileOut Identifier_fromString) clonedHeap = (h', Return profile_alice) /\
    (forall l, Profile.linkedCryptoID profile_alice = Some l -> h' l = richHeap l) /\
    (forall l, Profile.linkedCryptoID profile_alice <> Some l -> h' l = clonedHeap l).
Proof.
  apply (profile_restored_from_own_properties
           Identifier_toText Identifier_fromString richHeap clonedHeap
           profile_alice "person:alice").
  - intros l [= <-]. split; reflexivity.
  - intros l. split; reflexivity.
  - reflexivity.
  - reflexivity.
Defined.

(** X4. Decoding a stored record and encoding the result gives the stored
    record back, whenever the identifier parsed from the key prints as that
    key again (and, for a profile, the guard on [linkedCryptoID] lets it
    through). *)
Theorem decode_then_encode :
  forall (toText : IdentifierObj -> Completion string)
         (fromString : string -> Completion IdentifierObj) (h : Heap),
    (forall (x : CryptoIDRecordDb) i,
       fromString (CryptoID.identifier x) = Return i ->
       toText i = Return (CryptoID.identifier x) ->
       snd (bind (cryptoKeyRecordOut fromString x) (cryptoKeyRecordIn toText) h)
         = Return x) /\
    (forall (x : ProfileRecordDb) i,
       fromString (Profile.identifier x) = Return i ->
       toText i = Return (Profile.identifier x) ->
       linkAccepted h x = true ->
       snd (bind (profileOut fromString x) (profileIn toText) h) = Return x).
Proof.
  intros toText fromString h. split.
  - intros x i Di Ei. unfold bind at 1.
    rewrite cryptoKeyRecordOut_eq. unfold decoded. rewrite Di.
    unfold cryptoKeyRecordIn. rewrite bind_lift. simpl. rewrite Ei.
    destruct x. reflexivity.
  - intros x i Di Ei Hacc. unfold bind at 1.
    rewrite (surjective_pairing (profileOut fromString x h)).
    rewrite profileOut_result, Hacc. unfold decodedProfile. rewrite Di.
    unfold profileIn. rewrite bind_lift. simpl. rewrite Ei.
    destruct x. reflexivity.
Qed.

Lemma decode_then_encode_witness :
  snd (bind (cryptoKeyRecordOut Identifier_fromString (stored_K None))
            (cryptoKeyRecordIn Identifier_toText) clonedHeap)
    = Return (stored_K None) /\
  snd (bind (profileOut Identifier_fromString stored_alice)
            (profileIn Identifier_toText) clonedHeap)
    = Return stored_alice.
Proof.
  destruct (decode_then_encode Identifier_toText Identifier_fromString clonedHeap)
    as [Hc Hp].
  split.
  - apply (Hc (stored_K None) key_abcd); reflexivity.
  - apply (Hp stored_alice alice); reflexivity.
Defined.



(** X6. Decoding two CryptoID records in either order leaves the same heap,
    also when they share members of [attachedProfiles]; and what each call
    returns does not depend on the other having run. *)
Theorem cryptoKeyRecordOut_commutes :
  forall (fromString : string -> Completion IdentifierObj)
         (x y : CryptoIDRecordDb) (h : Heap),
    (forall l,
       fst (cryptoKeyRecordOut fromString y (fst (cryptoKeyRecordOut fromString x h))) l
       = fst (cryptoKeyRecordOut fromString x (fst (cryptoKeyRecordOut fromString y h))) l) /\
    snd (cryptoKeyRecordOut fromString y (fst (cryptoKeyRecordOut fromString x h)))
      = snd (cryptoKeyRecordOut fromString y h).
Proof.
  intros fromString x y h. split.
  - intros l.
    rewrite (cryptoKeyRecordOut_heap _ y (fst _)), (cryptoKeyRecordOut_heap _ x (fst _)).
    rewrite !cryptoKeyRecordOut_heap.
    destruct (decide (l ∈ CryptoID.attachedProfiles x));
      destruct (decide (l ∈ CryptoID.attachedProfiles y)); reflexivity.
  - now rewrite !cryptoKeyRecordOut_result.
Qed.



(** X8. [cryptoKeyRecordOut] does not look at the [type] of the members it
    patches: the record it returns is well typed in the heap it leaves
    exactly when the parsed identifier is an EC key identifier and every
    member of [attachedProfiles] had [type] ['person']. *)
Theorem cryptoKeyRecordOut_well_typed_iff :
  forall (fromString : string -> Completion IdentifierObj)
         (x : CryptoIDRecordDb) (h : Heap) (y : CryptoIDRecord),
    snd (cryptoKeyRecordOut fromString x h) = Return y ->
    (wellTypedCryptoID (fst (cryptoKeyRecordOut fromString x h)) y <->
     isECKeyIdentifier (CryptoID.identifier y) /\
     forall l, l ∈ CryptoID.attachedProfiles x -> type (h l) = "person").
Proof.
  intros fromString x h y Hy. rewrite cryptoKeyRecordOut_result in Hy.
  assert (Ha : CryptoID.attachedProfiles y = CryptoID.attachedProfiles x).
  { unfold decoded in Hy. destruct (fromString _); [|discriminate].
    now injection Hy as <-. }
  unfold wellTypedCryptoID. rewrite Ha. split.
  - intros [Hid Hm]. split; [exact Hid|]. intros l Hl.
    destruct (Hm l Hl) as [_ Ht]. now rewrite cryptoKeyRecordOut_type in Ht.
  - intros [Hid Hm]. split; [exact Hid|]. intros l Hl. split.
    + rewrite cryptoKeyRecordOut_heap. now destruct (decide _).
    + rewrite cryptoKeyRecordOut_type. exact (Hm l Hl).
Qed.

Lemma cryptoKeyRecordOut_well_typed_iff_witness :
  wellTypedCryptoID
    (fst (cryptoKeyRecordOut Identifier_fromString (stored_K None) clonedHeap))
    (record_K None) <->
  isECKeyIdentifier (CryptoID.identifier (record_K None)) /\
  forall l, l ∈ CryptoID.attachedProfiles (stored_K None) ->
            type (clonedHeap l) = "person".
Proof.
  apply (cryptoKeyRecordOut_well_typed_iff Identifier_fromString (stored_K None)
           clonedHeap (record_K None)).
  reflexivity.
Defined.

(** * Further properties of the store manager *)


Lemma pending_after_settle x y r :
  y ∈ List.filter (fun z => negb (Nat.eqb z x)) (pending r) -> y ∈ pending r.
Proof.
  rewrite !list_elem_of_In. intros H. now apply filter_In in H.
Qed.

Lemma run_from_ready es : forall r x,
  db_var r = Some x ->
  opened (fst (run es r)) = opened r /\
  is_Some (db_var (fst (run es r))) /\
  Forall (fun y => y ∈ x :: pending r) (snd (run es r)).
Proof.
  induction es as [|[|y|y] es IH]; intros r x E; simpl.
  - rewrite E. repeat split; [eauto|constructor].
  - rewrite (db_ready r x E). destruct (IH r x E) as (Ho & Hd & Hf).
    destruct (run es r) as [r2 xs]. simpl in *.
    repeat split; [exact Ho|exact Hd|].
    constructor; [apply list_elem_of_here|exact Hf].
  - unfold settle. destruct (bool_decide (y ∈ pending r)) eqn:Hy.
    + apply bool_decide_eq_true_1 in Hy.
      destruct (IH (mkRuntime (Some y) (opened r)
                      (List.filter (fun z => negb (Nat.eqb z y)) (pending r)))
                   y eq_refl) as (Ho & Hd & Hf).
      repeat split; [exact Ho|exact Hd|].
      eapply Forall_impl; [exact Hf|]. simpl. intros z Hz.
      apply list_elem_of_further.
      apply elem_of_cons in Hz as [->|Hz]; [exact Hy|].
      exact (pending_after_settle _ _ r Hz).
    + exact (IH r x E).
  - destruct (IH (reject y r) x E) as (Ho & Hd & Hf).
    repeat split; [exact Ho|exact Hd|].
    eapply Forall_impl; [exact Hf|]. simpl. intros z Hz.
    apply elem_of_cons in Hz as [->|Hz]; [apply list_elem_of_here|].
    apply list_elem_of_further. exact (pending_after_settle _ _ r Hz).
Qed.

(** X9. Once the variable [db] holds a connection, no schedule of further
    calls and settling promises makes [db()] call [openDB] again or empties
    the variable; every caller obtains the connection the variable held or
    one whose promise was still pending. *)
Theorem db_ready_never_reopens :
  forall (es : list Event) (r : Runtime) (x : IDBPDatabase),
    db_var r = Some x ->
    opened (fst (run es r)) = opened r /\
    is_Some (db_var (fst (run es r))) /\
    Forall (fun y => y ∈ x :: pending r) (snd (run es r)).
Proof. intros es r x E. exact (run_from_ready es r x E). Qed.

Lemma db_ready_never_reopens_witness :
  opened (fst (run [Call; Settle 1; Call; Settle 7; Call] (mkRuntime (Some 0) 2 [1]))) = 2 /\
  is_Some (db_var (fst (run [Call; Settle 1; Call; Settle 7; Call]
                          (mkRuntime (Some 0) 2 [1])))) /\
  Forall (fun y => y ∈ [0; 1])
         (snd (run [Call; Settle 1; Call; Settle 7; Call] (mkRuntime (Some 0) 2 [1]))).
Proof.
  apply (db_ready_never_reopens [Call; Settle 1; Call; Settle 7; Call]
           (mkRuntime (Some 0) 2 [1]) 0).
  reflexivity.
Defined.

Lemma calls_Call es : calls (Call :: es) = S (calls es).
Proof. reflexivity. Qed.




Lemma settle_knownOpened y r : knownOpened r -> knownOpened (settle y r).
Proof.
  intros [Hp Hd]. unfold settle.
  destruct (bool_decide (y ∈ pending r)) eqn:Hy; [|now split].
  apply bool_decide_eq_true_1 in Hy. split; simpl.
  - apply Forall_forall. intros z Hz.
    apply (proj1 (Forall_forall _ _) Hp).
    exact (pending_after_settle _ _ r Hz).
  - intros x [= <-]. exact (proj1 (Forall_forall _ _) Hp y Hy).
Qed.

Lemma reject_knownOpened y r : knownOpened r -> knownOpened (reject y r).
Proof.
  intros [Hp Hd]. split; simpl; [|exact Hd].
  apply Forall_forall. intros z Hz.
  apply (proj1 (Forall_forall _ _) Hp).
  exact (pending_after_settle _ _ r Hz).
Qed.

Lemma db_knownOpened r : knownOpened r -> knownOpened (fst (db r)).
Proof.
  intros [Hp Hd]. unfold db. destruct (db_var r) as [x|] eqn:E.
  - simpl. split; [exact Hp|]. now rewrite E.
  - split; simpl; [|discriminate].
    apply Forall_app. split; [|constructor; [lia|constructor]].
    eapply Forall_impl; [exact Hp|]. simpl. lia.
Qed.

Lemma run_Call_fst es r : fst (run (Call :: es) r) = fst (run es (fst (db r))).
Proof.
  change (run (Call :: es) r)
    with (let '(r1, x) := db r in let '(r2, xs) := run es r1 in (r2, x :: xs)).
  destruct (db r) as [r1 x]. simpl fst. now destruct (run es r1).
Qed.

Lemma settle_opened y r : opened (settle y r) = opened r.
Proof. unfold settle. now destruct (bool_decide _). Qed.

Lemma run_knownOpened es : forall r,
  knownOpened r ->
  knownOpened (fst (run es r)) /\
  opened r <= opened (fst (run es r)) /\
  opened (fst (run es r)) <= opened r + calls es /\
  (0 < calls es -> 0 < opened (fst (run es r))) /\
  (forall x, db_var (fst (run es r)) = Some x -> db_var r = Some x \/ Settle x ∈ es).
Proof.
  induction es as [|[|y|y] es IH]; intros r Hr.
  - simpl. unfold calls. simpl. repeat split; [apply Hr|apply Hr|lia|lia|lia|now left].
  - destruct (IH _ (db_knownOpened r Hr)) as (H1 & H2 & H3 & _ & H5).
    assert (Hdb : opened r <= opened (fst (db r)) <= S (opened r) /\
                  0 < opened (fst (db r)) /\
                  forall x, db_var (fst (db r)) = Some x -> db_var r = Some x).
    { unfold db. destruct (db_var r) as [x|] eqn:E; simpl.
      - repeat split; [lia|lia| |now rewrite E].
        pose proof (proj2 Hr x E). lia.
      - repeat split; [lia|lia|lia|discriminate]. }
    destruct Hdb as (Hd1 & Hd2 & Hd3).
    rewrite run_Call_fst, calls_Call.
    repeat split; [apply H1|apply H1|lia|lia|lia|].
    intros x Hx. destruct (H5 x Hx) as [Hl|Hr'].
    + left. exact (Hd3 x Hl).
    + right. now apply list_elem_of_further.
  - destruct (IH _ (settle_knownOpened y r Hr)) as (H1 & H2 & H3 & H4 & H5).
    rewrite settle_opened in H2, H3.
    simpl run. change (calls (Settle y :: es)) with (calls es).
    repeat split; [apply H1|apply H1|exact H2|exact H3|exact H4|].
    intros x Hx. destruct (H5 x Hx) as [Hl|Hr'].
    + unfold settle in Hl. destruct (bool_decide (y ∈ pending r)).
      * simpl in Hl. injection Hl as ->. right. apply list_elem_of_here.
      * now left.
    + right. now apply list_elem_of_further.
  - destruct (IH _ (reject_knownOpened y r Hr)) as (H1 & H2 & H3 & H4 & H5).
    simpl run. change (calls (Reject y :: es)) with (calls es).
    repeat split; [apply H1|apply H1|exact H2|exact H3|exact H4|].
    intros x Hx. destruct (H5 x Hx) as [Hl|Hr'].
    + now left.
    + right. now apply list_elem_of_further.
Qed.

(** X11. Under every schedule from the initial state, with fulfilments and
    rejections, [openDB] is called at most once per call of [db()] and the
    first call of [db()] does call it; the variable [db] only ever holds a
    connection that [openDB] was called for and whose promise fulfilled. *)
Theorem db_holds_fulfilled_connections :
  forall es : list Event,
    opened (fst (run es initial)) <= calls es /\
    (0 < calls es -> 0 < opened (fst (run es initial))) /\
    (forall x, db_var (fst (run es initial)) = Some x ->
       x < opened (fst (run es initial)) /\ Settle x ∈ es).
Proof.
  intros es.
  assert (Hi : knownOpened initial) by (split; [constructor|discriminate]).
  destruct (run_knownOpened es initial Hi) as (Hk & _ & H3 & H4 & H5).
  split; [exact H3|]. split; [exact H4|].
  intros x Hx. split; [exact (proj2 Hk x Hx)|].
  destruct (H5 x Hx) as [Hl|Hr]; [discriminate Hl|exact Hr].
Qed.

Lemma db_holds_fulfilled_connections_witness :
  0 < opened (fst (run [Call; Reject 0; Call; Settle 1; Call] initial)) /\
  (1 < opened (fst (run [Call; Reject 0; Call; Settle 1; Call] initial)) /\
   Settle 1 ∈ [Call; Reject 0; Call; Settle 1; Call]).
Proof.
  destruct (db_holds_fulfilled_connections [Call; Reject 0; Call; Settle 1; Call])
    as (_ & H1 & H2).
  split.
  - apply H1. vm_compute. lia.
  - apply (H2 1). reflexivity.
Defined.

Lemma v0_v1_throws (s : Schema) :
  hasStore "self" s || hasStore "others" s || hasStore "profiles" s = true ->
  snd (v0_v1 s) = Throw (DOMException "ConstraintError").
Proof.
  intros H. unfold v0_v1, bind, createObjectStore.
  destruct (hasStore "self" s) eqn:Hs; [reflexivity|].
  rewrite hasStore_app. destruct (hasStore "others" s) eqn:Ho; [reflexivity|].
  simpl orb. cbn [hasStore existsb storeName String.eqb Ascii.eqb Bool.eqb orb].
  rewrite !hasStore_app. simpl in H. rewrite H. reflexivity.
Qed.

(** X12. From previous version 0 the upgrade returns exactly when the schema
    has none of the object stores "self", "others" and "profiles"; when it has
    one, the upgrade throws ConstraintError. So the step cannot be run a
    second time: on the schema a successful upgrade leaves, an upgrade from
    version 0 throws. *)
Theorem upgrade_from_zero_runs_once :
  forall (newVersion : N) (s : Schema),
    (hasStore "self" s || hasStore "others" s || hasStore "profiles" s = false ->
     snd (upgrade 0 newVersion s) = Return tt) /\
    (hasStore "self" s || hasStore "others" s || hasStore "profiles" s = true ->
     snd (upgrade 0 newVersion s) = Throw (DOMException "ConstraintError")) /\
    (forall s' newVersion',
       upgrade 0 newVersion s = (s', Return tt) ->
       snd (upgrade 0 newVersion' s') = Throw (DOMException "ConstraintError")).
Proof.
  intros newVersion s.
  assert (Hret : hasStore "self" s || hasStore "others" s || hasStore "profiles" s = false ->
                 v0_v1 s =
                   ((s ++ [mkObjectStore "self" "identifier" [];
                           mkObjectStore "others" "identifier" [];
                           mkObjectStore "profiles" "identifier"
                             [mkIndex "network" "network" false]])%list,
                    Return tt)).
  { intros H. apply orb_false_elim in H as [H Hp].
    apply orb_false_elim in H as [Hs Ho]. now apply v0_v1_creates. }
  assert (Hu : forall nv, upgrade 0 nv = v0_v1) by reflexivity.
  split; [|split].
  - intros H. now rewrite Hu, (Hret H).
  - rewrite Hu. apply v0_v1_throws.
  - intros s' newVersion' E. rewrite Hu in *.
    destruct (hasStore "self" s || hasStore "others" s || hasStore "profiles" s) eqn:H.
    + rewrite (surjective_pairing (v0_v1 s)), (v0_v1_throws s H) in E. discriminate.
    + rewrite (Hret eq_refl) in E. injection E as <-.
      apply v0_v1_throws. rewrite hasStore_app. simpl.
      now rewrite orb_true_r.
Qed.

Lemma upgrade_from_zero_runs_once_witness :
  snd (upgrade 0 1 [mkObjectStore "drafts" "id" []]) = Return tt /\
  snd (upgrade 0 1 [mkObjectStore "drafts" "id" []; mkObjectStore "profiles" "identifier" []])
    = Throw (DOMException "ConstraintError") /\
  snd (upgrade 0 2 (fst (upgrade 0 1 []))) = Throw (DOMException "ConstraintError").
Proof.
  split; [|split].
  - destruct (upgrade_from_zero_runs_once 1%N [mkObjectStore "drafts" "id" []])
      as (H & _ & _).
    apply H. reflexivity.
  - destruct (upgrade_from_zero_runs_once 1%N
                [mkObjectStore "drafts" "id" [];
                 mkObjectStore "profiles" "identifier" []]) as (_ & H & _).
    apply H. reflexivity.
  - destruct (upgrade_from_zero_runs_once 1%N []) as (_ & _ & H).
    apply (H (fst (upgrade 0 1 [])) 2%N). reflexivity.
Defined.

(** * The decoders on objects that need not be extensible *)

Lemma canSetPrototype_true ext h p l :
  canSetPrototype ext h p l = true <-> ext l = true \/ proto (h l) = p.
Proof.
  unfold canSetPrototype. rewrite orb_true_iff, bool_decide_eq_true. tauto.
Qed.

Lemma canSetPrototype_false ext h p l :
  canSetPrototype ext h p l = false <-> ext l = false /\ proto (h l) <> p.
Proof.
  unfold canSetPrototype. rewrite orb_false_iff, bool_decide_eq_false. tauto.
Qed.

Lemma Strict_setPrototypeOf_can ext l p h :
  canSetPrototype ext h p l = true ->
  Strict.setPrototypeOf ext l p h = setPrototypeOf l p h.
Proof. intros H. unfold Strict.setPrototypeOf, setPrototypeOf. now rewrite H. Qed.

Lemma Strict_setPrototypeOf_cannot ext l p h :
  canSetPrototype ext h p l = false ->
  Strict.setPrototypeOf ext l p h = (h, Throw (TypeError "#<Object> is not extensible")).
Proof. intros H. unfold Strict.setPrototypeOf. now rewrite H. Qed.

Lemma canSetPrototype_after ext h p a l :
  canSetPrototype ext h p a = true ->
  canSetPrototype ext
    (fun l' => if decide (l' = a) then withPrototype p (h a) else h l') p l
  = canSetPrototype ext h p l.
Proof.
  intros Ha. unfold canSetPrototype.
  destruct (decide (l = a)) as [->|]; [|reflexivity].
  change (canSetPrototype ext h p a) with (ext a || bool_decide (proto (h a) = p)) in Ha.
  rewrite Ha. simpl. rewrite bool_decide_eq_true_2 by reflexivity.
  now rewrite orb_true_r.
Qed.

Lemma forallb_pointwise {A} (f g : A -> bool) (ls : list A) :
  (forall a, f a = g a) -> forallb f ls = forallb g ls.
Proof. intros H. induction ls as [|a ls IH]; [reflexivity|]. simpl. now rewrite H, IH. Qed.

Section StrictFacts.
Variable fromString : string -> Completion IdentifierObj.
Variable ext : loc -> bool.

Lemma Strict_restoreAttachedProfiles_result ls : forall h,
  snd (Strict.restoreAttachedProfiles ext ls h) =
    if forallb (canSetPrototype ext h PersonIdentifierPrototype) ls
    then Return tt
    else Throw (TypeError "#<Object> is not extensible").
Proof.
  induction ls as [|a ls IH]; intros h; [reflexivity|].
  simpl Strict.restoreAttachedProfiles. simpl forallb. unfold bind.
  destruct (canSetPrototype ext h PersonIdentifierPrototype a) eqn:Ha.
  - rewrite (Strict_setPrototypeOf_can _ _ _ _ Ha).
    unfold setPrototypeOf. cbv beta iota.
    rewrite IH. simpl andb.
    now rewrite (forallb_pointwise _ _ ls (fun l => canSetPrototype_after ext h _ a l Ha)).
  - now rewrite (Strict_setPrototypeOf_cannot _ _ _ _ Ha).
Qed.

Lemma Strict_restoreAttachedProfiles_can ls : forall h,
  forallb (canSetPrototype ext h PersonIdentifierPrototype) ls = true ->
  Strict.restoreAttachedProfiles ext ls h = restoreAttachedProfiles ls h.
Proof.
  induction ls as [|a ls IH]; intros h Hall; [reflexivity|].
  simpl in Hall. apply andb_true_iff in Hall as [Ha Hall].
  simpl. unfold bind. rewrite (Strict_setPrototypeOf_can _ _ _ _ Ha).
  unfold setPrototypeOf at 1. cbv beta iota. fold (setPrototypeOf a PersonIdentifierPrototype h).
  unfold setPrototypeOf. cbv beta iota.
  apply IH.
  now rewrite (forallb_pointwise _ _ ls (fun l => canSetPrototype_after ext h _ a l Ha)).
Qed.

Lemma Strict_restoreAttachedProfiles_frame ls : forall h l,
  type (fst (Strict.restoreAttachedProfiles ext ls h) l) = type (h l) /\
  data (fst (Strict.restoreAttachedProfiles ext ls h) l) = data (h l) /\
  (l ∉ ls -> fst (Strict.restoreAttachedProfiles ext ls h) l = h l).
Proof.
  induction ls as [|a ls IH]; intros h l; [now repeat split|].
  simpl Strict.restoreAttachedProfiles. unfold bind.
  destruct (canSetPrototype ext h PersonIdentifierPrototype a) eqn:Ha.
  - rewrite (Strict_setPrototypeOf_can _ _ _ _ Ha).
    unfold setPrototypeOf. cbv beta iota.
    destruct (IH (fun l' => if decide (l' = a)
                            then withPrototype PersonIdentifierPrototype (h a)
                            else h l') l) as (Ht & Hd & Hn).
    rewrite Ht, Hd.
    destruct (decide (l = a)) as [->|Hne].
    + repeat split. intros Hl. exfalso. apply Hl, list_elem_of_here.
    + repeat split. intros Hl. rewrite Hn.
      * now destruct (decide (l = a)).
      * intros Hin. apply Hl. now apply list_elem_of_further.
  - rewrite (Strict_setPrototypeOf_cannot _ _ _ _ Ha). now repeat split.
Qed.

Lemma Strict_cryptoKeyRecordOut_eq x h :
  Strict.cryptoKeyRecordOut fromString ext x h =
    (fst (Strict.restoreAttachedProfiles ext (CryptoID.attachedProfiles x) h),
     if forallb (canSetPrototype ext h PersonIdentifierPrototype)
          (CryptoID.attachedProfiles x)
     then decoded fromString x
     else Throw (TypeError "#<Object> is not extensible")).
Proof.
  unfold Strict.cryptoKeyRecordOut, bind at 1.
  pose proof (Strict_restoreAttachedProfiles_result (CryptoID.attachedProfiles x) h) as Hr.
  destruct (Strict.restoreAttachedProfiles ext (CryptoID.attachedProfiles x) h)
    as [h' r]. simpl in Hr. subst r.
  destruct (forallb _ _); [|reflexivity].
  rewrite bind_lift. unfold decoded. now destruct (fromString _).
Qed.

Lemma Strict_profileOut_eq x h :
  Strict.profileOut fromString ext x h =
    match Profile.linkedCryptoID x with
    | Some l =>
        if String.eqb (type (h l)) "ec_key"
        then
          if canSetPrototype ext h ECKeyIdentifierPrototype l
          then (fun l' => if decide (l' = l)
                          then withPrototype ECKeyIdentifierPrototype (h l)
                          else h l',
                decodedProfile fromString x)
          else (h, Throw (TypeError "#<Object> is not extensible"))
        else (h, Throw (Error "Unknown type of linkedCryptoID"))
    | None => (h, decodedProfile fromString x)
    end.
Proof.
  unfold Strict.profileOut, Strict.restoreLinkedCryptoID, decodedProfile.
  destruct (Profile.linkedCryptoID x) as [l|].
  - unfold bind at 1 2, getType.
    destruct (String.eqb (type (h l)) "ec_key"); [|reflexivity].
    unfold Strict.setPrototypeOf.
    destruct (canSetPrototype ext h ECKeyIdentifierPrototype l); [|reflexivity].
    rewrite bind_lift. now destruct (fromString _).
  - unfold bind at 1, ret at 1. rewrite bind_lift. now destruct (fromString _).
Qed.
End StrictFacts.

Lemma forallb_canSetPrototype ext h p (ls : list loc) :
  (forall l, l ∈ ls -> ext l = true \/ proto (h l) = p) ->
  forallb (canSetPrototype ext h p) ls = true.
Proof.
  intros H. apply forallb_forall. intros l Hl.
  apply canSetPrototype_true, H, list_elem_of_In, Hl.
Qed.

Lemma forallb_canSetPrototype_false ext h p (ls : list loc) l :
  l ∈ ls -> ext l = false -> proto (h l) <> p ->
  forallb (canSetPrototype ext h p) ls = false.
Proof.
  intros Hl He Hp.
  destruct (forallb (canSetPrototype ext h p) ls) eqn:E; [|reflexivity].
  apply (proj1 (forallb_forall _ _)) with (x := l) in E;
    [|now apply list_elem_of_In].
  apply canSetPrototype_true in E as [E|E]; congruence.
Qed.

Lemma forallb_false_elem {A} (f : A -> bool) (ls : list A) :
  forallb f ls = false -> exists a, a ∈ ls /\ f a = false.
Proof.
  induction ls as [|a ls IH]; [discriminate|]. simpl.
  destruct (f a) eqn:Fa.
  - intros H. destruct (IH H) as (b & Hb & Fb). exists b.
    split; [now apply list_elem_of_further|exact Fb].
  - intros _. exists a. split; [apply list_elem_of_here|exact Fa].
Qed.

(** ** C3: side effects of the transcoder, amended *)

(** C3, amended. [profileIn] and [cryptoKeyRecordIn] leave every object as
    it is. [profileOut] and [cryptoKeyRecordOut] never change an own
    property and never touch an object that is not the [linkedCryptoID],
    respectively a member of [attachedProfiles]. [profileOut] gives a
    [linkedCryptoID] of [type] ['ec_key'] the prototype
    [ECKeyIdentifier.prototype] when the object is extensible or has it
    already, throws the TypeError of [Object.setPrototypeOf] when it is
    neither, and throws the unknown-type error for any other [type], in both
    cases without touching the heap. [cryptoKeyRecordOut] gives every member
    [PersonIdentifier.prototype] when each is extensible or has it already,
    and throws that TypeError when one is neither. A failure of [toText] or
    of [fromString] is thrown to the caller. *)
Theorem transcoder_effects :
  forall (toText : IdentifierObj -> Completion string)
         (fromString : string -> Completion IdentifierObj)
         (ext : loc -> bool) (h : Heap),
    (forall x, fst (profileIn toText x h) = h) /\
    (forall x, fst (cryptoKeyRecordIn toText x h) = h) /\
    (forall x l,
       type (fst (Strict.profileOut fromString ext x h) l) = type (h l) /\
       data (fst (Strict.profileOut fromString ext x h) l) = data (h l) /\
       (Profile.linkedCryptoID x <> Some l ->
        fst (Strict.profileOut fromString ext x h) l = h l)) /\
    (forall x l,
       Profile.linkedCryptoID x = Some l ->
       type (h l) = "ec_key" ->
       ext l = true \/ proto (h l) = ECKeyIdentifierPrototype ->
       fst (Strict.profileOut fromString ext x h) l
         = withPrototype ECKeyIdentifierPrototype (h l)) /\
    (forall x l,
       Profile.linkedCryptoID x = Some l ->
       type (h l) <> "ec_key" ->
       Strict.profileOut fromString ext x h
         = (h, Throw (Error "Unknown type of linkedCryptoID"))) /\
    (forall x l,
       Profile.linkedCryptoID x = Some l ->
       type (h l) = "ec_key" ->
       ext l = false ->
       proto (h l) <> ECKeyIdentifierPrototype ->
       Strict.profileOut fromString ext x h
         = (h, Throw (TypeError "#<Object> is not extensible"))) /\
    (forall x l,
       type (fst (Strict.cryptoKeyRecordOut fromString ext x h) l) = type (h l) /\
       data (fst (Strict.cryptoKeyRecordOut fromString ext x h) l) = data (h l) /\
       (l ∉ CryptoID.attachedProfiles x ->
        fst (Strict.cryptoKeyRecordOut fromString ext x h) l = h l)) /\
    (forall x,
       (forall l, l ∈ CryptoID.attachedProfiles x ->
          ext l = true \/ proto (h l) = PersonIdentifierPrototype) ->
       forall l, l ∈ CryptoID.attachedProfiles x ->
         fst (Strict.cryptoKeyRecordOut fromString ext x h) l
           = withPrototype PersonIdentifierPrototype (h l)) /\
    (forall x l,
       l ∈ CryptoID.attachedProfiles x ->
       ext l = false ->
       proto (h l) <> PersonIdentifierPrototype ->
       snd (Strict.cryptoKeyRecordOut fromString ext x h)
         = Throw (TypeError "#<Object> is not extensible")) /\
    (forall x e, toText (Profile.identifier x) = Throw e ->
       snd (profileIn toText x h) = Throw e) /\
    (forall x e, toText (CryptoID.identifier x) = Throw e ->
       snd (cryptoKeyRecordIn toText x h) = Throw e) /\
    (forall x e,
       fromString (Profile.identifier x) = Throw e ->
       (forall l, Profile.linkedCryptoID x = Some l ->
          type (h l) = "ec_key" /\
          (ext l = true \/ proto (h l) = ECKeyIdentifierPrototype)) ->
       snd (Strict.profileOut fromString ext x h) = Throw e) /\
    (forall x e,
       fromString (CryptoID.identifier x) = Throw e ->
       (forall l, l ∈ CryptoID.attachedProfiles x ->
          ext l = true \/ proto (h l) = PersonIdentifierPrototype) ->
       snd (Strict.cryptoKeyRecordOut fromString ext x h) = Throw e).
Proof.
  intros toText fromString ext h. repeat apply conj.
  - intros x. apply profileIn_heap.
  - intros x. apply cryptoKeyRecordIn_heap.
  - intros x l. rewrite Strict_profileOut_eq.
    destruct (Profile.linkedCryptoID x) as [l0|]; [|now repeat split].
    destruct (String.eqb (type (h l0)) "ec_key"); [|now repeat split].
    destruct (canSetPrototype ext h ECKeyIdentifierPrototype l0); [|now repeat split].
    simpl. destruct (decide (l = l0)) as [->|Hne]; repeat split. congruence.
  - intros x l El Ht Hcan. rewrite Strict_profileOut_eq, El, Ht. simpl.
    rewrite (proj2 (canSetPrototype_true ext h _ l) Hcan). simpl.
    now destruct (decide (l = l)).
  - intros x l El Ht. rewrite Strict_profileOut_eq, El.
    now rewrite (proj2 (String.eqb_neq _ _) Ht).
  - intros x l El Ht He Hp. rewrite Strict_profileOut_eq, El, Ht. simpl.
    now rewrite (proj2 (canSetPrototype_false ext h _ l) (conj He Hp)).
  - intros x l. rewrite Strict_cryptoKeyRecordOut_eq. simpl.
    apply Strict_restoreAttachedProfiles_frame.
  - intros x Hcan l Hl. rewrite Strict_cryptoKeyRecordOut_eq. simpl.
    rewrite (Strict_restoreAttachedProfiles_can ext _ h
               (forallb_canSetPrototype ext h _ _ Hcan)).
    rewrite (proj2 (restoreAttachedProfiles_spec _ h)).
    destruct (decide _) as [_|Hn]; [reflexivity|contradiction].
  - intros x l Hl He Hp. rewrite Strict_cryptoKeyRecordOut_eq. simpl.
    now rewrite (forallb_canSetPrototype_false ext h _ _ l Hl He Hp).
  - intros x e E. unfold profileIn. now rewrite bind_lift, E.
  - intros x e E. now rewrite (cryptoKeyRecordIn_Throw _ _ _ _ E).
  - intros x e E Hok. rewrite Strict_profileOut_eq. unfold decodedProfile.
    destruct (Profile.linkedCryptoID x) as [l|]; [|simpl; now rewrite E].
    destruct (Hok l eq_refl) as [Ht Hcan]. rewrite Ht. simpl.
    rewrite (proj2 (canSetPrototype_true ext h _ l) Hcan). simpl. now rewrite E.
  - intros x e E Hcan. rewrite Strict_cryptoKeyRecordOut_eq. simpl.
    rewrite (forallb_canSetPrototype ext h _ _ Hcan). unfold decoded. now rewrite E.
Qed.

Lemma transcoder_effects_witness :
  (fst (Strict.profileOut Identifier_fromString (fun _ => true) stored_alice clonedHeap)
       1%positive
     = withPrototype ECKeyIdentifierPrototype (clonedHeap 1%positive) /\
   fst (Strict.profileOut Identifier_fromString (fun _ => true) stored_alice clonedHeap)
       2%positive
     = clonedHeap 2%positive /\
   Strict.profileOut Identifier_fromString (fun _ => true)
       (stored_alice_linking 2%positive) clonedHeap
     = (clonedHeap, Throw (Error "Unknown type of linkedCryptoID")) /\
   Strict.profileOut Identifier_fromString frozen stored_alice clonedHeap
     = (clonedHeap, Throw (TypeError "#<Object> is not extensible"))) /\
  (fst (Strict.cryptoKeyRecordOut Identifier_fromString (fun _ => true)
          (stored_K None) clonedHeap) 2%positive
     = withPrototype PersonIdentifierPrototype (clonedHeap 2%positive) /\
   fst (Strict.cryptoKeyRecordOut Identifier_fromString (fun _ => true)
          (stored_K None) clonedHeap) 1%positive
     = clonedHeap 1%positive /\
   snd (Strict.cryptoKeyRecordOut Identifier_fromString frozen
          (stored_K None) clonedHeap)
     = Throw (TypeError "#<Object> is not extensible")) /\
  (snd (profileIn Identifier_toText
          {| Profile.identifier := clonedHeap 2%positive;
             Profile.nickname := None; Profile.localKey := None;
             Profile.linkedCryptoID := None;
             Profile.createdAt := 0%Z; Profile.updatedAt := 0%Z |} richHeap)
     = Throw (TypeError "toText is not a function") /\
   snd (cryptoKeyRecordIn Identifier_toText
          {| CryptoID.identifier := clonedHeap 1%positive;
             CryptoID.publicKey := KeyHandle 1; CryptoID.privateKey := None;
             CryptoID.localKey := None; CryptoID.nickname := "K";
             CryptoID.attachedProfiles := [];
             CryptoID.createdAt := 0%Z; CryptoID.updatedAt := 0%Z |} richHeap)
     = Throw (TypeError "toText is not a function")) /\
  (snd (Strict.profileOut Identifier_fromString frozen
          {| Profile.identifier := "alice";
             Profile.nickname := None; Profile.localKey := None;
             Profile.linkedCryptoID := Some 1%positive;
             Profile.createdAt := 0%Z; Profile.updatedAt := 0%Z |} richHeap)
     = Throw (Error "unknown identifier type") /\
   snd (Strict.cryptoKeyRecordOut Identifier_fromString frozen
          {| CryptoID.identifier := "0xABCD";
             CryptoID.publicKey := KeyHandle 1; CryptoID.privateKey := None;
             CryptoID.localKey := None; CryptoID.nickname := "K";
             CryptoID.attachedProfiles := [2%positive];
             CryptoID.createdAt := 0%Z; CryptoID.updatedAt := 0%Z |} richHeap)
     = Throw (Error "unknown identifier type")).
Proof.
  destruct (transcoder_effects Identifier_toText Identifier_fromString
              (fun _ => true) clonedHeap)
    as (_ & _ & Pf & Ps & Pu & _ & Cf & Cs & _).
  destruct (transcoder_effects Identifier_toText Identifier_fromString
              frozen clonedHeap)
    as (_ & _ & _ & _ & _ & Pt & _ & _ & Ct & _).
  destruct (transcoder_effects Identifier_toText Identifier_fromString
              frozen richHeap)
    as (_ & _ & _ & _ & _ & _ & _ & _ & _ & Ti & Tc & Fp & Fc).
  split; [|split; [|split]].
  - split; [|split; [|split]].
    + apply (Ps stored_alice 1%positive); [reflexivity|reflexivity|now left].
    + apply (Pf stored_alice 2%positive). discriminate.
    + apply (Pu (stored_alice_linking 2%positive) 2%positive);
        [reflexivity|discriminate].
    + apply (Pt stored_alice 1%positive);
        [reflexivity|reflexivity|reflexivity|discriminate].
  - split; [|split].
    + apply (Cs (stored_K None)); [intros l _; now left|].
      apply list_elem_of_here.
    + apply (Cf (stored_K None) 1%positive). simpl.
      rewrite !elem_of_cons, elem_of_nil.
      intros [H|[H|H]]; [discriminate H|discriminate H|exact H].
    + apply (Ct (stored_K None) 2%positive);
        [apply list_elem_of_here|reflexivity|discriminate].
  - split.
    + apply Ti. reflexivity.
    + apply Tc. reflexivity.
  - split.
    + apply Fp; [reflexivity|].
      intros l [= <-]. split; [reflexivity|now right].
    + apply Fc; [reflexivity|].
      intros l Hl. apply elem_of_cons in Hl as [->|Hl]; [now right|].
      now apply elem_of_nil in Hl.
Defined.

(** On extensible objects the decoders are the ones of the first part. *)
Lemma Strict_decoders_extensible fromString ext h :
  (forall l, ext l = true) ->
  (forall x, Strict.profileOut fromString ext x h = profileOut fromString x h) /\
  (forall x, Strict.cryptoKeyRecordOut fromString ext x h
             = cryptoKeyRecordOut fromString x h).
Proof.
  intros Hext. split; intros x.
  - rewrite Strict_profileOut_eq, profileOut_eq. unfold decodedProfile.
    pose proof (restoreLinkedCryptoID_cases x h) as Hc.
    destruct (Profile.linkedCryptoID x) as [l|].
    + destruct (String.eqb (type (h l)) "ec_key"); rewrite Hc; [|reflexivity].
      unfold canSetPrototype. now rewrite Hext.
    + now rewrite Hc.
  - rewrite Strict_cryptoKeyRecordOut_eq, cryptoKeyRecordOut_eq.
    assert (Hall : forallb (canSetPrototype ext h PersonIdentifierPrototype)
                     (CryptoID.attachedProfiles x) = true).
    { apply forallb_canSetPrototype. intros l _. left. apply Hext. }
    now rewrite Hall, (Strict_restoreAttachedProfiles_can ext _ h Hall).
Qed.

(** ** C10: when the decoders throw *)

(** C10, as it fails. On a stored profile whose [linkedCryptoID] has [type]
    ['ec_key'] and whose key [Identifier.fromString] parses, [profileOut]
    throws all the same when the linked object is not extensible and has
    another prototype: [Object.setPrototypeOf] at line 157 throws a
    TypeError. [cryptoKeyRecordOut] throws in the same way at line 170. *)
Lemma decoders_throw_on_non_extensible :
  Profile.linkedCryptoID stored_alice = Some 1%positive /\
  type (clonedHeap 1%positive) = "ec_key" /\
  Identifier_fromString (Profile.identifier stored_alice) = Return alice /\
  snd (Strict.profileOut Identifier_fromString frozen stored_alice clonedHeap)
    = Throw (TypeError "#<Object> is not extensible") /\
  Identifier_fromString (CryptoID.identifier (stored_K None)) = Return key_abcd /\
  snd (Strict.cryptoKeyRecordOut Identifier_fromString frozen (stored_K None) clonedHeap)
    = Throw (TypeError "#<Object> is not extensible").
Proof. repeat split. Qed.

(** C10, amended. Whenever [Identifier.fromString] returns for the stored
    key, [profileOut] returns normally on every input whose [linkedCryptoID]
    is absent, or has [type] ['ec_key'] and is extensible or already has
    [ECKeyIdentifier.prototype]; [cryptoKeyRecordOut] returns normally on
    every input whose members of [attachedProfiles] are each extensible or
    already have [PersonIdentifier.prototype]. A throw of [profileOut] is the
    throw of [Identifier.fromString], the unknown-type error (only with a
    [linkedCryptoID] whose [type] is not ['ec_key']) or the TypeError of
    [Object.setPrototypeOf] (only with a non-extensible [linkedCryptoID] of
    another prototype, and always then); a throw of [cryptoKeyRecordOut] is
    the throw of [Identifier.fromString] or that TypeError (only with such a
    member, and always then). *)
Theorem decoders_throw_only_when :
  forall (fromString : string -> Completion IdentifierObj)
         (ext : loc -> bool) (h : Heap),
    (forall (x : ProfileRecordDb) i,
       fromString (Profile.identifier x) = Return i ->
       (forall l, Profile.linkedCryptoID x = Some l ->
          type (h l) = "ec_key" /\
          (ext l = true \/ proto (h l) = ECKeyIdentifierPrototype)) ->
       exists y, snd (Strict.profileOut fromString ext x h) = Return y) /\
    (forall (x : ProfileRecordDb) e,
       snd (Strict.profileOut fromString ext x h) = Throw e ->
       fromString (Profile.identifier x) = Throw e \/
       (e = Error "Unknown type of linkedCryptoID" /\
        exists l, Profile.linkedCryptoID x = Some l /\ type (h l) <> "ec_key") \/
       (e = TypeError "#<Object> is not extensible" /\
        exists l, Profile.linkedCryptoID x = Some l /\ type (h l) = "ec_key" /\
                  ext l = false /\ proto (h l) <> ECKeyIdentifierPrototype)) /\
    (forall (x : ProfileRecordDb) l,
       Profile.linkedCryptoID x = Some l ->
       type (h l) = "ec_key" ->
       ext l = false ->
       proto (h l) <> ECKeyIdentifierPrototype ->
       snd (Strict.profileOut fromString ext x h)
         = Throw (TypeError "#<Object> is not extensible")) /\
    (forall (x : CryptoIDRecordDb) i,
       fromString (CryptoID.identifier x) = Return i ->
       (forall l, l ∈ CryptoID.attachedProfiles x ->
          ext l = true \/ proto (h l) = PersonIdentifierPrototype) ->
       exists y, snd (Strict.cryptoKeyRecordOut fromString ext x h) = Return y) /\
    (forall (x : CryptoIDRecordDb) e,
       snd (Strict.cryptoKeyRecordOut fromString ext x h) = Throw e ->
       fromString (CryptoID.identifier x) = Throw e \/
       (e = TypeError "#<Object> is not extensible" /\
        exists l, l ∈ CryptoID.attachedProfiles x /\
                  ext l = false /\ proto (h l) <> PersonIdentifierPrototype)) /\
    (forall (x : CryptoIDRecordDb) l,
       l ∈ CryptoID.attachedProfiles x ->
       ext l = false ->
       proto (h l) <> PersonIdentifierPrototype ->
       snd (Strict.cryptoKeyRecordOut fromString ext x h)
         = Throw (TypeError "#<Object> is not extensible")).
Proof.
  intros fromString ext h. repeat apply conj.
  - intros x i Ei Hok. rewrite Strict_profileOut_eq. unfold decodedProfile.
    destruct (Profile.linkedCryptoID x) as [l|]; [|simpl; rewrite Ei; now eexists].
    destruct (Hok l eq_refl) as [Ht Hcan]. rewrite Ht. simpl.
    rewrite (proj2 (canSetPrototype_true ext h _ l) Hcan). simpl.
    rewrite Ei. now eexists.
  - intros x e. rewrite Strict_profileOut_eq. unfold decodedProfile.
    destruct (Profile.linkedCryptoID x) as [l|].
    + destruct (String.eqb (type (h l)) "ec_key") eqn:Et.
      * apply String.eqb_eq in Et.
        destruct (canSetPrototype ext h ECKeyIdentifierPrototype l) eqn:Hc; simpl.
        -- destruct (fromString _); [discriminate|]. intros [= ->]. now left.
        -- intros [= <-]. right. right. split; [reflexivity|]. exists l.
           apply canSetPrototype_false in Hc as [He Hp]. now repeat split.
      * apply String.eqb_neq in Et. simpl. intros [= <-]. right. left.
        split; [reflexivity|]. now exists l.
    + simpl. destruct (fromString _); [discriminate|]. intros [= ->]. now left.
  - intros x l El Ht He Hp. rewrite Strict_profileOut_eq, El, Ht. simpl.
    now rewrite (proj2 (canSetPrototype_false ext h _ l) (conj He Hp)).
  - intros x i Ei Hcan. rewrite Strict_cryptoKeyRecordOut_eq. simpl.
    rewrite (forallb_canSetPrototype ext h _ _ Hcan). unfold decoded.
    rewrite Ei. now eexists.
  - intros x e. rewrite Strict_cryptoKeyRecordOut_eq. simpl.
    destruct (forallb _ _) eqn:Hall.
    + unfold decoded. destruct (fromString _); [discriminate|].
      intros [= ->]. now left.
    + intros [= <-]. right. split; [reflexivity|].
      destruct (forallb_false_elem _ _ Hall) as (l & Hl & Hc).
      exists l. apply canSetPrototype_false in Hc as [He Hp]. now repeat split.
  - intros x l Hl He Hp. rewrite Strict_cryptoKeyRecordOut_eq. simpl.
    now rewrite (forallb_canSetPrototype_false ext h _ _ l Hl He Hp).
Qed.

Lemma decoders_throw_only_when_witness :
  (exists y, snd (Strict.profileOut Identifier_fromString (fun _ => true)
                    stored_alice clonedHeap) = Return y) /\
  (exists y, snd (Strict.profileOut Identifier_fromString frozen
                    stored_alice richHeap) = Return y) /\
  snd (Strict.profileOut Identifier_fromString frozen stored_alice clonedHeap)
    = Throw (TypeError "#<Object> is not extensible") /\
  (exists y, snd (Strict.cryptoKeyRecordOut Identifier_fromString (fun _ => true)
                    (stored_K None) clonedHeap) = Return y) /\
  snd (Strict.cryptoKeyRecordOut Identifier_fromString frozen
         (stored_K None) clonedHeap)
    = Throw (TypeError "#<Object> is not extensible") /\
  (Identifier_fromString (Profile.identifier (stored_alice_linking 2%positive))
     = Throw (Error "Unknown type of linkedCryptoID") \/
   (Error "Unknown type of linkedCryptoID" = Error "Unknown type of linkedCryptoID" /\
    exists l, Profile.linkedCryptoID (stored_alice_linking 2%positive) = Some l /\
              type (clonedHeap l) <> "ec_key") \/
   (Error "Unknown type of linkedCryptoID" = TypeError "#<Object> is not extensible" /\
    exists l, Profile.linkedCryptoID (stored_alice_linking 2%positive) = Some l /\
              type (clonedHeap l) = "ec_key" /\
              frozen l = false /\ proto (clonedHeap l) <> ECKeyIdentifierPrototype)).
Proof.
  destruct (decoders_throw_only_when Identifier_fromString (fun _ => true) clonedHeap)
    as (Rp & _ & _ & Rc & _ & _).
  destruct (decoders_throw_only_when Identifier_fromString frozen richHeap)
    as (Rp' & _).
  destruct (decoders_throw_only_when Identifier_fromString frozen clonedHeap)
    as (_ & Op & Tp & _ & _ & Tc).
  split; [|split; [|split; [|split; [|split]]]].
  - apply (Rp stored_alice alice); [reflexivity|].
    intros l [= <-]. split; [reflexivity|now left].
  - apply (Rp' stored_alice alice); [reflexivity|].
    intros l [= <-]. split; [reflexivity|now right].
  - apply (Tp stored_alice 1%positive);
      [reflexivity|reflexivity|reflexivity|discriminate].
  - apply (Rc (stored_K None) key_abcd); [reflexivity|]. intros l _. now left.
  - apply (Tc (stored_K None) 2%positive);
      [apply list_elem_of_here|reflexivity|discriminate].
  - apply (Op (stored_alice_linking 2%positive)). reflexivity.
Defined.

(** ** C2: the two CryptoID partitions *)











